(** * ballTracer: colour tracking pipeline of [main.py]

    A shallow embedding of [get_min_contour_area], [process_frame],
    [draw_contours] and the loop of [main], and the properties the
    specification states about them.

    Conventions of the embedding.
    - Python [int] is [Z].  A Python [float] is a rational number, in [Q].
      The measures the library returns and the quotients of line 70 are
      taken as exact rationals, and [int()] is truncation toward zero.  The
      division of line 40 is the one place whose rounding a statement is
      about: [get_min_contour_area_float] is that division in binary64
      (round to nearest, ties to even, [OverflowError] beyond the range),
      [get_min_contour_area] is the exact quotient it rounds, and the
      pipeline is stated with the exact threshold.
    - The OpenCV, imutils and numpy calls are library code: they are the
      operations of the class [Cv2], and every theorem holds for every
      implementation of them.  [Sketch] is one small implementation, used to
      run the functions on concrete inputs.
    - A Python exception is the [Raise] outcome.  The frame is one mutable
      buffer: the loop of [draw_contours] runs in a state monad whose state
      holds that buffer and the records handed to the logger, so that what
      has been drawn before an exception stays drawn. *)

From Stdlib Require Import ZArith QArith Qabs Lia List Ascii DecimalString DecimalZ.
From stdpp Require Import base option list strings gmap.

Local Open Scope string_scope.
Local Open Scope Z_scope.

(** ** Numbers *)

Module PyNum.

(** [int(x)] on a float: the integer part, rounding toward zero. *)
Definition py_int (x : Q) : Z := Z.quot (Qnum x) (Z.pos (Qden x)).

(** [a < b] on floats, as a boolean. *)
Definition Qltb (a b : Q) : bool := (Qnum a * QDen b <? Qnum b * QDen a)%Z.

(** [a > b] is [b < a]. *)
Definition Qgtb (a b : Q) : bool := Qltb b a.

(** [str(n)] of an integer. *)
Definition py_str_int (n : Z) : string := NilEmpty.string_of_int (Z.to_int n).

(** [str((x, y))] of a pair of integers. *)
Definition py_str_pair (p : Z * Z) : string :=
  "(" ++ py_str_int (fst p) ++ ", " ++ py_str_int (snd p) ++ ")".

End PyNum.
Export PyNum.

(** ** Exceptions *)

Inductive exn : Type :=
| KeyError (key : string)
| ZeroDivisionError
| OverflowError.

Inductive outcome (A : Type) : Type :=
| Ok (a : A)
| Raise (e : exn).
Arguments Ok {A} a.
Arguments Raise {A} e.

#[export] Instance outcome_ret : MRet outcome := fun _ a => Ok a.
#[export] Instance outcome_bind : MBind outcome := fun _ _ f m =>
  match m with
  | Ok a => f a
  | Raise e => Raise e
  end.

(** [a / b] on floats. *)
Definition py_truediv (a b : Q) : outcome Q :=
  if Qeq_bool b 0 then Raise ZeroDivisionError else Ok (a / b)%Q.

(** ** Binary64

    A finite binary64 number is [m * 2 ^ (k - 1074)] with [|m| < 2 ^ 53] and
    [0 <= k <= 2045]: a whole number of [units] of [2 ^ -1074], the smallest
    positive float. *)

Definition units : positive := (2 ^ 1074)%positive.

(** The integer nearest to [N / D], the even one when two are as near. *)
Definition round_half_even (N D : Z) : Z :=
  let q := N / D in
  let r := N mod D in
  if 2 * r <? D then q
  else if D <? 2 * r then q + 1
  else if Z.even q then q else q + 1.

(** The exponent, counted from [-1074], of the floats around [Q0] units:
    53 bits below the leading bit of [Q0], and never below 0. *)
Definition binade (Q0 : Z) : Z := Z.max (Z.log2 Q0 - 52) 0.

(** [U / d] units rounded to a float, in units. *)
Definition round_units (U d : Z) : Z :=
  let e := binade (U / d) in
  round_half_even U (d * 2 ^ e) * 2 ^ e.

(** [a / b] on integers: the float nearest to the quotient. *)
Definition py_int_truediv (a b : Z) : outcome Q :=
  if b =? 0 then Raise ZeroDivisionError
  else
    let R := round_units (Z.abs a * Z.pos units) (Z.abs b) in
    if 2 ^ 2098 <=? R then Raise OverflowError
    else Ok (Qmake (Z.sgn a * Z.sgn b * R) units).

(** [d[k]] on a dict with string keys. *)
Definition subscript {V} (d : gmap string V) (k : string) : outcome V :=
  match d !! k with
  | Some v => Ok v
  | None => Raise (KeyError k)
  end.

(** ** Logging *)

Inductive log_level : Type := DEBUG | INFO | WARNING | ERROR | CRITICAL.

Record log_record : Type := LogRecord { levelname : log_level; message : string }.

(** ** The vision library *)

Inductive color_code : Type := COLOR_BGR2HSV | COLOR_BGR2GRAY | COLOR_BGR2RGB.
Inductive retrieval_mode : Type := RETR_EXTERNAL | RETR_LIST | RETR_CCOMP | RETR_TREE.
Inductive approx_method : Type := CHAIN_APPROX_NONE | CHAIN_APPROX_SIMPLE.

(** The entries of the dict of [cv2.moments] that the program reads. *)
Record Moments : Type := mkMoments { m00 : Q; m10 : Q; m01 : Q }.

Class Cv2 (ndarray found contour : Type) : Type := {
  GaussianBlur : ndarray -> Z * Z -> Z -> ndarray;
  cvtColor : ndarray -> color_code -> ndarray;
  inRange : ndarray -> list Z -> list Z -> ndarray;
  erode : ndarray -> option ndarray -> Z -> ndarray;
  dilate : ndarray -> option ndarray -> Z -> ndarray;
  ndarray_copy : ndarray -> ndarray;
  findContours : ndarray -> retrieval_mode -> approx_method -> found;
  grab_contours : found -> list contour;
  contourArea : contour -> Q;
  minEnclosingCircle : contour -> (Q * Q) * Q;
  moments : contour -> Moments;
  circle : ndarray -> Z * Z -> Z -> Z * Z * Z -> Z -> ndarray;
  resize : ndarray -> Z * Z -> ndarray;
  shape : ndarray -> Z * Z * Z
}.

(** ** The colour table *)

Definition hsv_entry (lower upper : list Z) : gmap string (list Z) :=
  <["lower" := lower]> (<["upper" := upper]> ∅).

Definition color_bounds : gmap string (gmap string (list Z)) :=
  list_to_map [
    ("blue", hsv_entry [100; 50; 50] [130; 255; 255]);
    ("red", hsv_entry [0; 100; 100] [10; 255; 255]);
    ("green", hsv_entry [40; 50; 50] [80; 255; 255]);
    ("yellow", hsv_entry [20; 100; 100] [30; 255; 255]);
    ("orange", hsv_entry [5; 100; 100] [15; 255; 255]);
    ("black", hsv_entry [0; 0; 0] [180; 255; 30]);
    ("white", hsv_entry [0; 0; 200] [180; 30; 255])
  ].

(** The colours the specification lists as configured. *)
Definition supported_colors : list string :=
  ["blue"; "red"; "green"; "yellow"; "orange"; "black"; "white"].

(** ** [get_min_contour_area] *)

(** Line 40 as the program runs it: the product is an integer, the division
    a float division. *)
Definition get_min_contour_area_float (frame_width frame_height : Z) : outcome Q :=
  py_int_truediv (frame_width * frame_height) 1000.

(** Line 40 over the real numbers: the quotient that the float division
    rounds. *)
Definition get_min_contour_area (frame_width frame_height : Z) : Q :=
  (inject_Z (frame_width * frame_height) / inject_Z 1000)%Q.

(** [x] is a finite binary64 number. *)
Definition is_binary64 (x : Q) : Prop :=
  exists m k : Z,
    Z.abs m < 2 ^ 53 /\ 0 <= k <= 2045 /\ (x == Qmake (m * 2 ^ k) units)%Q.

Section Pipeline.

Context {ndarray found contour : Type} `{cv : !Cv2 ndarray found contour}.

(** ** [process_frame] *)

Definition process_frame (frame : ndarray)
    (color_bounds : gmap string (gmap string (list Z)))
    (chosen_color : string) (min_contour_area : Q)
    : outcome (ndarray * list contour) :=
  let blurred := GaussianBlur frame (11, 11) 0 in
  let hsv := cvtColor blurred COLOR_BGR2HSV in
  lower ← subscript color_bounds chosen_color ≫= (λ d, subscript d "lower");
  upper ← subscript color_bounds chosen_color ≫= (λ d, subscript d "upper");
  let mask := inRange hsv lower upper in
  let mask := erode mask None 2 in
  let mask := dilate mask None 2 in
  let cnts := findContours (ndarray_copy mask) RETR_EXTERNAL CHAIN_APPROX_SIMPLE in
  let cnts := grab_contours cnts in
  Ok (frame, cnts).

(** ** The frame buffer and the logger *)

Record world : Type := World { frame_buf : ndarray; log_stream : list log_record }.

Definition Py (A : Type) : Type := world -> outcome A * world.

#[export] Instance Py_ret : MRet Py := fun _ a w => (Ok a, w).
#[export] Instance Py_bind : MBind Py := fun _ _ f m w =>
  match m w with
  | (Ok a, w') => f a w'
  | (Raise e, w') => (Raise e, w')
  end.

Definition lift {A} (o : outcome A) : Py A := fun w => (o, w).

(** [cv2.circle(frame, center, radius, color, thickness)] draws into the
    buffer. *)
Definition cv2_circle (center : Z * Z) (radius : Z) (color : Z * Z * Z)
    (thickness : Z) : Py unit := fun w =>
  (Ok (), World (circle (frame_buf w) center radius color thickness) (log_stream w)).

Definition logger_info (msg : string) : Py unit := fun w =>
  (Ok (), World (frame_buf w) (log_stream w ++ [LogRecord INFO msg])).

Definition the_frame : Py ndarray := fun w => (Ok (frame_buf w), w).

Fixpoint for_each {A} (l : list A) (body : A -> Py unit) : Py unit :=
  match l with
  | [] => mret ()
  | x :: rest => body x ≫= (λ _, for_each rest body)
  end.

(** ** [draw_contours] *)

(** The body of the [for] loop, lines 64 to 72. *)
Definition draw_contour (min_contour_area : Q) (c : contour) : Py unit :=
  let area := contourArea c in
  if Qgtb area min_contour_area then
    let '((x, y), radius) := minEnclosingCircle c in
    if Qgtb radius 10 then
      _ ← cv2_circle (py_int x, py_int y) (py_int radius) (0, 255, 255) 5;
      let M := moments c in
      cx ← lift (py_truediv (m10 M) (m00 M));
      cy ← lift (py_truediv (m01 M) (m00 M));
      let center := (py_int cx, py_int cy) in
      _ ← cv2_circle center 5 (0, 0, 255) (-1);
      logger_info ("Center coordinates: " ++ py_str_pair center)
    else mret ()
  else mret ().

(** [frame] becomes the buffer of the state, the loop draws into it, and the
    value returned is that same buffer.  The last argument is what the logger
    has received so far. *)
Definition draw_contours (frame : ndarray) (cnts : list contour) (min_contour_area : Q)
    (log : list log_record) : outcome ndarray * world :=
  (_ ← for_each cnts (draw_contour min_contour_area);
   the_frame) (World frame log).

(** ** [main] *)

(** What [main] touches besides the frame: the keys that [cv2.waitKey]
    will return, the frames handed to [cv2.imshow], the logger, and
    whether the camera was released and the windows closed. *)
Record desk : Type := Desk {
  keyboard : list Z;
  window : list ndarray;
  logged : list log_record;
  cleaned_up : bool
}.

(** [cv2.waitKey(1)]: the next key, or [-1] when none is pressed. *)
Definition waitKey (d : desk) : Z * desk :=
  match keyboard d with
  | [] => (-1, d)
  | k :: ks => (k, Desk ks (window d) (logged d) (cleaned_up d))
  end.

Definition imshow (frame : ndarray) (d : desk) : desk :=
  Desk (keyboard d) (window d ++ [frame]) (logged d) (cleaned_up d).

(** The [while True] loop, lines 84 to 99.  [camera] holds the frames that
    [cap.read()] still delivers; once it is empty the frame read is
    [None]. *)
Fixpoint main_loop (chosen_color : string) (camera : list ndarray) (d : desk)
    : outcome unit * desk :=
  match camera with
  | [] => (Ok (), d)
  | frame :: camera =>
    let frame := resize frame (640, 480) in
    let '(rows, cols, _) := shape frame in
    let min_contour_area := get_min_contour_area cols rows in
    match process_frame frame color_bounds chosen_color min_contour_area with
    | Raise e => (Raise e, d)
    | Ok (frame, cnts) =>
      match draw_contours frame cnts min_contour_area (logged d) with
      | (Raise e, w) =>
        (Raise e, Desk (keyboard d) (window d) (log_stream w) (cleaned_up d))
      | (Ok frame, w) =>
        let d := imshow frame (Desk (keyboard d) (window d) (log_stream w) (cleaned_up d)) in
        let '(key, d) := waitKey d in
        if Z.land key 255 =? 113 then (Ok (), d)
        else main_loop chosen_color camera d
      end
    end
  end.

Definition main (camera : list ndarray) (d : desk) : outcome unit * desk :=
  let chosen_color := "blue" in
  match main_loop chosen_color camera d with
  | (Raise e, d) => (Raise e, d)
  | (Ok _, d) => (Ok (), Desk (keyboard d) (window d) (logged d) true)
  end.

(** ** Notions of the specification

    The definitions below are not code of the program: they spell out the
    words of the specification (the two tests of the Contour Filter, the
    annotation of a detection, the steps of the Mask Builder), to be
    compared with the functions above. *)

Definition radius_of (c : contour) : Q := snd (minEnclosingCircle c).

(** "area > minimum contour area and radius > 10". *)
Definition passes_filters (min_contour_area : Q) (c : contour) : Prop :=
  (min_contour_area < contourArea c)%Q /\ (10 < radius_of c)%Q.

Definition passes_filtersb (min_contour_area : Q) (c : contour) : bool :=
  Qgtb (contourArea c) min_contour_area && Qgtb (radius_of c) 10.

(** "the zeroth-order moment is zero". *)
Definition degenerate (c : contour) : Prop := (m00 (moments c) == 0)%Q.

Definition degenerateb (c : contour) : bool := Qeq_bool (m00 (moments c)) 0.

(** Every contour that passes both tests has a centroid. *)
Definition centroids_defined (min_contour_area : Q) (cnts : list contour) : Prop :=
  Forall (fun c => passes_filters min_contour_area c -> ~ degenerate c) cnts.

(** [z] is [x] with its fractional part dropped: the integer next to [x] on
    the side of zero. *)
Definition truncates (x : Q) (z : Z) : Prop :=
  ((0 <= x)%Q -> (inject_Z z <= x)%Q /\ (x < inject_Z (z + 1))%Q) /\
  ((x <= 0)%Q -> (inject_Z (z - 1) < x)%Q /\ (x <= inject_Z z)%Q).

(** "centroid = (first-order x-moment / zeroth-order moment, first-order
    y-moment / zeroth-order moment)", as integers. *)
Definition centroid (c : contour) : Z * Z :=
  let M := moments c in
  (py_int (m10 M / m00 M)%Q, py_int (m01 M / m00 M)%Q).

(** "an outline circle at (center, radius) in one fixed color". *)
Definition outline_circle (c : contour) (frame : ndarray) : ndarray :=
  let '((x, y), radius) := minEnclosingCircle c in
  circle frame (py_int x, py_int y) (py_int radius) (0, 255, 255) 5.

(** "a filled small dot at center in a second fixed color". *)
Definition centroid_dot (c : contour) (frame : ndarray) : ndarray :=
  circle frame (centroid c) 5 (0, 0, 255) (-1).

(** "Center coordinates: (x, y) at informational level". *)
Definition center_record (c : contour) : log_record :=
  LogRecord INFO
    ("Center coordinates: (" ++ py_str_int (fst (centroid c)) ++ ", "
       ++ py_str_int (snd (centroid c)) ++ ")").

(** The whole annotation of one detection. *)
Definition annotate (c : contour) (w : world) : world :=
  World (centroid_dot c (outline_circle c (frame_buf w)))
        (log_stream w ++ [center_record c]).

(** The annotation of every contour of [cnts] that passes both tests, in
    the order of [cnts]. *)
Definition annotate_all (min_contour_area : Q) (cnts : list contour) (w : world)
    : world :=
  fold_left (fun w c => annotate c w)
            (List.filter (passes_filtersb min_contour_area) cnts) w.

(** The state in which an annotation stops when the centroid of [c] cannot
    be computed: the outline circle is there, the dot and the log line are
    not. *)
Definition outline_only (c : contour) (w : world) : world :=
  World (outline_circle c (frame_buf w)) (log_stream w).

(** The steps of the Mask Builder, in the order of the specification. *)
Definition mask_builder (frame : ndarray) (lower upper : list Z) : ndarray :=
  let blurred := GaussianBlur frame (11, 11) 0 in
  let hsv := cvtColor blurred COLOR_BGR2HSV in
  let thresholded := inRange hsv lower upper in
  let eroded := erode thresholded None 2 in
  dilate eroded None 2.

(** "Extracts only external (outermost) contours". *)
Definition external_contours (mask : ndarray) : list contour :=
  grab_contours (findContours (ndarray_copy mask) RETR_EXTERNAL CHAIN_APPROX_SIMPLE).

(** What one turn of the loop of [main] does with a frame whose pipeline
    completed in state [w]: show it, poll the keyboard. *)
Definition show_and_poll (d : desk) (w : world) : Z * desk :=
  waitKey (imshow (frame_buf w)
                  (Desk (keyboard d) (window d) (log_stream w) (cleaned_up d))).

End Pipeline.

(** ** A small implementation of the library

    An image is described by the coloured regions in it and the circles
    drawn on it; a contour by what the library measures on it. *)

Module Sketch.

Record outline : Type := Outline {
  o_area : Q;
  o_circle : (Q * Q) * Q;
  o_moments : Moments
}.

Record region : Type := Region {
  r_hsv : list Z;
  r_outline : outline;
  r_depth : nat
}.

Record stroke : Type := Stroke {
  s_center : Z * Z;
  s_radius : Z;
  s_color : Z * Z * Z;
  s_thickness : Z
}.

Record image : Type := Image {
  i_shape : Z * Z * Z;
  i_regions : list region;
  i_strokes : list stroke
}.

Fixpoint within (lower v upper : list Z) : bool :=
  match lower, v, upper with
  | l :: ls, x :: xs, u :: us => (l <=? x) && (x <=? u) && within ls xs us
  | [], [], [] => true
  | _, _, _ => false
  end.

Definition in_range (img : image) (lower upper : list Z) : image :=
  Image (i_shape img)
        (List.filter (fun r => within lower (r_hsv r) upper) (i_regions img))
        (i_strokes img).

Definition outermost (r : region) : bool := Nat.eqb (r_depth r) 0.

Definition find (img : image) (mode : retrieval_mode) (_ : approx_method)
    : list outline :=
  match mode with
  | RETR_EXTERNAL => List.map r_outline (List.filter outermost (i_regions img))
  | _ => List.map r_outline (i_regions img)
  end.

Definition draw_circle (img : image) (center : Z * Z) (radius : Z)
    (color : Z * Z * Z) (thickness : Z) : image :=
  Image (i_shape img) (i_regions img)
        (i_strokes img ++ [Stroke center radius color thickness]).

Definition resized (img : image) (size : Z * Z) : image :=
  Image (snd size, fst size, 3) (i_regions img) (i_strokes img).

#[global] Instance sketch_cv : Cv2 image (list outline) outline := {|
  GaussianBlur img _ _ := img;
  cvtColor img _ := img;
  inRange := in_range;
  erode img _ _ := img;
  dilate img _ _ := img;
  ndarray_copy img := img;
  findContours := find;
  grab_contours found := found;
  contourArea := o_area;
  minEnclosingCircle := o_circle;
  moments := o_moments;
  circle := draw_circle;
  resize := resized;
  shape := i_shape
|}.

(** A filled disk of radius 50 centred at (320, 240). *)
Definition disk50 : outline :=
  Outline 7845 ((320, 240), 50.5)%Q (mkMoments 7845 2510400 1882800).

(** A straight stroke from (0, 0) to (30, 0): it encloses no area and all
    its moments are zero. *)
Definition segment : outline :=
  Outline 0 ((15, 0), 15)%Q (mkMoments 0 0 0).

(** A speck of 2 by 2 pixels at (100, 100). *)
Definition speck : outline :=
  Outline 1 ((100.5, 100.5), 0.75)%Q (mkMoments 1 100.5 100.5)%Q.

(** A region whose true centroid is (319.9, 240.7). *)
Definition offcentre : outline :=
  Outline 1000 ((319.9, 240.7), 20.6)%Q (mkMoments 1000 319900 240700).

(** The outlines of the regions of [img] that lie inside no other. *)
Definition is_outermost (img : image) (c : outline) : Prop :=
  exists r, In r (i_regions img) /\ r_outline r = c /\ r_depth r = 0%nat.

Definition blank : image := Image (480, 640, 3) [] [].

Definition blue_scene : image :=
  Image (480, 640, 3)
        [Region [110; 200; 200] disk50 0;
         Region [110; 180; 180] offcentre 1;
         Region [5; 200; 200] speck 0]
        [].

End Sketch.

(** * Properties *)

(** ** Numbers *)

Section NumFacts.

Local Open Scope Q_scope.

Lemma Qltb_lt (a b : Q) : Qltb a b = true <-> a < b.
Proof. unfold Qltb, Qlt. apply Z.ltb_lt. Qed.

Lemma Qgtb_gt (a b : Q) : Qgtb a b = true <-> b < a.
Proof. unfold Qgtb. apply Qltb_lt. Qed.

Lemma Qgtb_le (a b : Q) : Qgtb a b = false <-> a <= b.
Proof.
  unfold Qgtb, Qltb, Qle. rewrite Z.ltb_ge. reflexivity.
Qed.

Lemma py_truediv_defined (a b : Q) : ~ b == 0 -> py_truediv a b = Ok (a / b).
Proof.
  intros Hb. unfold py_truediv.
  destruct (Qeq_bool b 0) eqn:E; [|reflexivity].
  apply Qeq_bool_eq in E. contradiction.
Qed.

Lemma py_truediv_by_zero (a b : Q) : b == 0 -> py_truediv a b = Raise ZeroDivisionError.
Proof.
  intros Hb. unfold py_truediv. now rewrite (Qeq_eq_bool _ _ Hb).
Qed.

(** [int()] drops the fractional part. *)
Lemma py_int_truncates (x : Q) : truncates x (py_int x).
Proof.
  destruct x as [n d]. unfold truncates, py_int, Qle, Qlt. cbn.
  pose proof (Z.quot_rem' n (Z.pos d)) as Hqr.
  split; intros Hsign.
  - assert (0 <= n)%Z as Hn by lia.
    pose proof (Z.rem_bound_pos_pos n (Z.pos d) ltac:(lia) Hn). nia.
  - assert (n <= 0)%Z as Hn by lia.
    pose proof (Z.rem_bound_pos_neg n (Z.pos d) ltac:(lia) Hn). nia.
Qed.

(** There is one truncation only. *)
Lemma truncates_unique (x : Q) (z z' : Z) : truncates x z -> truncates x z' -> z = z'.
Proof.
  destruct x as [n d]. unfold truncates, Qle, Qlt. cbn.
  intros [Hp Hn] [Hp' Hn'].
  destruct (Z.le_ge_cases 0 n) as [H0|H0].
  - specialize (Hp ltac:(lia)). specialize (Hp' ltac:(lia)). nia.
  - specialize (Hn ltac:(lia)). specialize (Hn' ltac:(lia)). nia.
Qed.

End NumFacts.

(** ** Rounding to binary64 *)

Lemma round_half_even_cases (N D : Z) :
  0 < D ->
  (round_half_even N D = N / D /\ 2 * (N mod D) <= D) \/
  (round_half_even N D = N / D + 1 /\ D <= 2 * (N mod D)).
Proof.
  intros HD. unfold round_half_even.
  destruct (2 * (N mod D) <? D) eqn:E1; [left; split; [reflexivity|lia]|].
  destruct (D <? 2 * (N mod D)) eqn:E2; [right; split; [reflexivity|lia]|].
  apply Z.ltb_ge in E1, E2.
  destruct (Z.even (N / D)); [left|right]; split; try reflexivity; lia.
Qed.

Lemma round_half_even_near (N D : Z) :
  0 < D ->
  N / D <= round_half_even N D <= N / D + 1 /\
  2 * Z.abs (round_half_even N D * D - N) <= D.
Proof.
  intros HD.
  pose proof (Z.div_mod N D ltac:(lia)) as Hdm.
  pose proof (Z.mod_pos_bound N D HD) as Hr.
  destruct (round_half_even_cases N D HD) as [[-> H]|[-> H]]; split; try lia; nia.
Qed.

Lemma round_half_even_nearest (N D z : Z) :
  0 < D -> Z.abs (round_half_even N D * D - N) <= Z.abs (z * D - N).
Proof.
  intros HD.
  pose proof (Z.div_mod N D ltac:(lia)) as Hdm.
  pose proof (Z.mod_pos_bound N D HD) as Hr.
  destruct (Z_le_gt_dec z (N / D)) as [Hz|Hz];
    destruct (round_half_even_cases N D HD) as [[-> H]|[-> H]]; nia.
Qed.

Lemma round_half_even_mono (N N' D : Z) :
  0 < D -> N <= N' -> round_half_even N D <= round_half_even N' D.
Proof.
  intros HD Hle.
  pose proof (Z.div_le_mono N N' D HD Hle) as Hq.
  destruct (Z.eq_dec (N / D) (N' / D)) as [Heq|Hne].
  - pose proof (Z.div_mod N D ltac:(lia)) as Hdm.
    pose proof (Z.div_mod N' D ltac:(lia)) as Hdm'.
    assert (N mod D <= N' mod D) as Hr by nia.
    unfold round_half_even. rewrite <- Heq.
    destruct (2 * (N mod D) <? D) eqn:E1; destruct (2 * (N' mod D) <? D) eqn:E1';
      destruct (D <? 2 * (N mod D)) eqn:E2; destruct (D <? 2 * (N' mod D)) eqn:E2';
      destruct (Z.even (N / D)); lia.
  - pose proof (round_half_even_near N D HD) as [[_ Hm] _].
    pose proof (round_half_even_near N' D HD) as [[Hm' _] _]. lia.
Qed.

Lemma binade_nonneg (Q0 : Z) : 0 <= binade Q0.
Proof. unfold binade. lia. Qed.

Lemma binade_upper (Q0 : Z) : 0 <= Q0 -> Q0 / 2 ^ binade Q0 < 2 ^ 53.
Proof.
  intros HQ. pose proof (binade_nonneg Q0) as He.
  apply Z.div_lt_upper_bound; [apply Z.pow_pos_nonneg; lia|].
  rewrite <- Z.pow_add_r by lia.
  destruct (Z.eq_dec Q0 0) as [->|Hne]; [apply Z.pow_pos_nonneg; lia|].
  pose proof (Z.log2_spec Q0 ltac:(lia)) as [_ Hup].
  eapply Z.lt_le_trans; [exact Hup|].
  apply Z.pow_le_mono_r; [lia|]. unfold binade. lia.
Qed.

Lemma binade_lower (Q0 : Z) : 0 < binade Q0 -> 2 ^ 52 <= Q0 / 2 ^ binade Q0.
Proof.
  intros He. unfold binade in *.
  assert (0 < Q0) as HQ.
  { destruct (Z_lt_le_dec 0 Q0); [assumption|].
    rewrite Z.log2_nonpos in He by assumption. lia. }
  pose proof (Z.log2_spec Q0 HQ) as [Hlow _].
  replace (Z.max (Z.log2 Q0 - 52) 0) with (Z.log2 Q0 - 52) in * by lia.
  apply Z.div_le_lower_bound; [apply Z.pow_pos_nonneg; lia|].
  rewrite <- Z.pow_add_r by lia.
  replace (Z.log2 Q0 - 52 + 52) with (Z.log2 Q0) by lia. exact Hlow.
Qed.

Lemma binade_mono (Q0 Q0' : Z) : Q0 <= Q0' -> binade Q0 <= binade Q0'.
Proof.
  intros Hle. unfold binade. pose proof (Z.log2_le_mono Q0 Q0' Hle). lia.
Qed.

Lemma pow_ladder (a b e e' : Z) :
  a <= 2 ^ 53 -> 2 ^ 52 <= b -> 0 <= e < e' -> a * 2 ^ e <= b * 2 ^ e'.
Proof.
  intros Ha Hb He.
  assert (0 < 2 ^ e) by (apply Z.pow_pos_nonneg; lia).
  assert (0 < 2 ^ e') by (apply Z.pow_pos_nonneg; lia).
  apply Z.le_trans with (2 ^ 53 * 2 ^ e); [apply Z.mul_le_mono_nonneg_r; lia|].
  apply Z.le_trans with (2 ^ 52 * 2 ^ e'); [|apply Z.mul_le_mono_nonneg_r; lia].
  rewrite <- !Z.pow_add_r by lia. apply Z.pow_le_mono_r; lia.
Qed.

Section RoundUnits.

Variables (U d : Z).
Hypothesis U_nonneg : 0 <= U.
Hypothesis d_pos : 0 < d.

Let e := binade (U / d).
Let m := round_half_even U (d * 2 ^ e).

Lemma ru_scale_pos : 0 < d * 2 ^ e.
Proof.
  pose proof (binade_nonneg (U / d)). subst e.
  apply Z.mul_pos_pos; [assumption|apply Z.pow_pos_nonneg; lia].
Qed.

Lemma ru_quot : U / (d * 2 ^ e) = U / d / 2 ^ e.
Proof.
  pose proof (binade_nonneg (U / d)). subst e.
  rewrite Z.div_div; [reflexivity|lia|apply Z.pow_pos_nonneg; lia].
Qed.

Lemma ru_mantissa : 0 <= m <= 2 ^ 53 /\ (0 < e -> 2 ^ 52 <= m).
Proof.
  pose proof ru_scale_pos as HD.
  pose proof (round_half_even_near U (d * 2 ^ e) HD) as [[Hlo Hhi] _]. fold m in Hlo, Hhi.
  rewrite ru_quot in Hlo, Hhi.
  assert (0 <= U / d) as HQ by (apply Z.div_pos; lia).
  pose proof (binade_upper (U / d) HQ) as Hup. fold e in Hup.
  assert (0 <= U / d / 2 ^ e) as Hq0.
  { apply Z.div_pos; [lia|]. apply Z.pow_pos_nonneg; [lia|]. apply binade_nonneg. }
  split; [lia|]. intros He.
  pose proof (binade_lower (U / d) He) as Hlow. fold e in Hlow. lia.
Qed.

Lemma ru_value : round_units U d = m * 2 ^ e.
Proof. reflexivity. Qed.

Lemma ru_half_ulp : 2 * Z.abs (round_units U d * d - U) <= d * 2 ^ e.
Proof.
  pose proof ru_scale_pos as HD.
  pose proof (round_half_even_near U (d * 2 ^ e) HD) as [_ H]. fold m in H.
  rewrite ru_value. replace (m * 2 ^ e * d) with (m * (d * 2 ^ e)) by ring. exact H.
Qed.

(** The result is as near as any [m' * 2 ^ k] with [|m'| < 2 ^ 53]. *)
Lemma ru_nearest (m' k : Z) :
  Z.abs m' < 2 ^ 53 -> 0 <= k ->
  Z.abs (round_units U d * d - U) <= Z.abs (m' * 2 ^ k * d - U).
Proof.
  intros Hm' Hk.
  pose proof ru_scale_pos as HD.
  pose proof (binade_nonneg (U / d)) as He. fold e in He.
  assert (0 < 2 ^ e) as Hpe by (apply Z.pow_pos_nonneg; lia).
  assert (0 < 2 ^ k) as Hpk by (apply Z.pow_pos_nonneg; lia).
  rewrite ru_value. replace (m * 2 ^ e * d) with (m * (d * 2 ^ e)) by ring.
  destruct (Z_le_gt_dec e k) as [Hek|Hek].
  - replace k with ((k - e) + e) by lia. rewrite Z.pow_add_r by lia.
    replace (m' * (2 ^ (k - e) * 2 ^ e) * d) with (m' * 2 ^ (k - e) * (d * 2 ^ e)) by ring.
    apply round_half_even_nearest. exact HD.
  - pose proof ru_mantissa as [_ Hnormal]. specialize (Hnormal ltac:(lia)).
    pose proof (round_half_even_cases U (d * 2 ^ e) HD) as Hcases. fold m in Hcases.
    pose proof (round_half_even_near U (d * 2 ^ e) HD) as [[Hlo _] _]. fold m in Hlo.
    pose proof (Z.div_mod U (d * 2 ^ e) ltac:(lia)) as Hdm.
    pose proof (Z.mod_pos_bound U (d * 2 ^ e) HD) as Hr.
    assert (m' * 2 ^ k <= (U / (d * 2 ^ e)) * 2 ^ e) as Hbelow.
    { apply pow_ladder; [lia| |lia].
      rewrite ru_quot. apply binade_lower. fold e. lia. }
    assert (m' * 2 ^ k * d <= U / (d * 2 ^ e) * (d * 2 ^ e)) as Hfd.
    { replace (U / (d * 2 ^ e) * (d * 2 ^ e)) with (U / (d * 2 ^ e) * 2 ^ e * d) by ring.
      apply Z.mul_le_mono_nonneg_r; [lia|exact Hbelow]. }
    destruct Hcases as [[Hm H]|[Hm H]]; rewrite Hm; lia.
Qed.

End RoundUnits.

Lemma round_units_mono (U U' d : Z) :
  0 <= U -> U <= U' -> 0 < d -> round_units U d <= round_units U' d.
Proof.
  intros HU Hle Hd.
  assert (U / d <= U' / d) as HQ by (apply Z.div_le_mono; lia).
  pose proof (binade_mono _ _ HQ) as He.
  pose proof (binade_nonneg (U / d)) as He0.
  destruct (Z.eq_dec (binade (U / d)) (binade (U' / d))) as [Heq|Hne].
  - unfold round_units. rewrite <- Heq.
    apply Z.mul_le_mono_nonneg_r; [apply Z.pow_nonneg; lia|].
    apply round_half_even_mono; [|exact Hle].
    apply Z.mul_pos_pos; [assumption|apply Z.pow_pos_nonneg; lia].
  - pose proof (ru_mantissa U d HU Hd) as [[_ Hm] _].
    pose proof (ru_mantissa U' d ltac:(lia) Hd) as [_ Hm'].
    specialize (Hm' ltac:(lia)).
    rewrite (ru_value U d), (ru_value U' d).
    apply pow_ladder; lia.
Qed.

(** ** Integer division in binary64 *)

Lemma units_value : Z.pos units = 2 ^ 1074.
Proof. reflexivity. Qed.

Lemma round_units_zero (d : Z) : 0 < d -> round_units 0 d = 0.
Proof.
  intros Hd. unfold round_units. rewrite Z.div_0_l by lia.
  change (binade 0) with 0. rewrite Z.pow_0_r, !Z.mul_1_r.
  pose proof (round_half_even_near 0 d Hd) as [[Hlo Hhi] Hnear].
  rewrite Z.div_0_l in Hlo, Hhi by lia. nia.
Qed.

Lemma round_units_nonneg (U d : Z) : 0 <= U -> 0 < d -> 0 <= round_units U d.
Proof.
  intros HU Hd. rewrite ru_value.
  pose proof (ru_mantissa U d HU Hd) as [[Hm _] _].
  apply Z.mul_nonneg_nonneg; [exact Hm|]. apply Z.pow_nonneg. lia.
Qed.

Lemma py_int_truediv_finite (a b : Z) :
  0 <= a -> 0 < b ->
  round_units (a * Z.pos units) b < 2 ^ 2098 ->
  py_int_truediv a b = Ok (Qmake (round_units (a * Z.pos units) b) units).
Proof.
  intros Ha Hb Hfin. unfold py_int_truediv.
  destruct (b =? 0) eqn:Eb; [apply Z.eqb_eq in Eb; lia|].
  rewrite (Z.abs_eq a), (Z.abs_eq b) by lia.
  destruct (2 ^ 2098 <=? round_units (a * Z.pos units) b) eqn:E;
    [apply Z.leb_le in E; lia|].
  do 2 f_equal. rewrite (Z.sgn_pos b) by lia.
  destruct (Z.eq_dec a 0) as [->|Hne].
  - rewrite Z.mul_0_l, round_units_zero by lia. reflexivity.
  - rewrite (Z.sgn_pos a) by lia. lia.
Qed.

Lemma py_int_truediv_overflow (a b : Z) :
  0 <= a -> 0 < b ->
  2 ^ 2098 <= round_units (a * Z.pos units) b ->
  py_int_truediv a b = Raise OverflowError.
Proof.
  intros Ha Hb Hinf. unfold py_int_truediv.
  destruct (b =? 0) eqn:Eb; [apply Z.eqb_eq in Eb; lia|].
  rewrite (Z.abs_eq a), (Z.abs_eq b) by lia.
  destruct (2 ^ 2098 <=? round_units (a * Z.pos units) b) eqn:E;
    [reflexivity|apply Z.leb_gt in E; lia].
Qed.

(** Distances to the quotient [a / P], read in units. *)
Lemma distance_in_units (S P : positive) (a R : Z) :
  (Qabs (Qmake R S - inject_Z a / inject_Z (Z.pos P))
   == Qmake (Z.abs (R * Z.pos P - a * Z.pos S)) (S * P))%Q.
Proof.
  unfold Qeq, Qabs, Qminus, Qplus, Qopp, Qdiv, Qmult, Qinv, inject_Z.
  cbn [Qnum Qden]. rewrite !Pos.mul_1_l.
  f_equal. f_equal. lia.
Qed.

Lemma Qmake_le_same (S : positive) (x y : Z) :
  (Qmake x S <= Qmake y S)%Q <-> x <= y.
Proof.
  unfold Qle. cbn [Qnum Qden]. split; [|nia].
  intros H. apply Z.mul_le_mono_pos_r in H; [exact H|lia].
Qed.

Section TrueDivision.

Variables (a : Z) (P : positive).
Hypothesis a_nonneg : 0 <= a.

Let U := a * Z.pos units.
Let R := round_units U (Z.pos P).
Let x := (inject_Z a / inject_Z (Z.pos P))%Q.

Lemma truediv_units_nonneg : 0 <= U.
Proof. subst U. apply Z.mul_nonneg_nonneg; lia. Qed.

Lemma truediv_nearest (f : Q) :
  is_binary64 f -> (Qabs (Qmake R units - x) <= Qabs (f - x))%Q.
Proof.
  intros (m & k & Hm & Hk & Hf). rewrite Hf. subst x.
  rewrite !distance_in_units. apply Qmake_le_same.
  fold U. apply (ru_nearest U (Z.pos P) truediv_units_nonneg); lia.
Qed.

Lemma truediv_representable : R < 2 ^ 2098 -> is_binary64 (Qmake R units).
Proof.
  intros Hfin.
  pose proof (ru_mantissa U (Z.pos P) truediv_units_nonneg ltac:(lia)) as [[Hm0 Hm] Hnormal].
  pose proof (ru_value U (Z.pos P)) as HR. fold R in HR.
  pose proof (binade_nonneg (U / Z.pos P)) as He.
  set (e := binade (U / Z.pos P)) in *.
  set (m := round_half_even U (Z.pos P * 2 ^ e)) in *.
  assert (0 < 2 ^ e) as Hpe by (apply Z.pow_pos_nonneg; lia).
  destruct (Z.eq_dec m (2 ^ 53)) as [Htop|Hbelow].
  - exists (2 ^ 52), (e + 1). split; [reflexivity|]. split.
    + split; [lia|].
      assert (2 ^ (53 + e) < 2 ^ 2098) as Hlt
        by (rewrite Z.pow_add_r by lia; rewrite <- Htop, <- HR; exact Hfin).
      apply Z.pow_lt_mono_r_iff in Hlt; lia.
    + assert (R = 2 ^ 52 * 2 ^ (e + 1)) as ->; [|reflexivity].
      rewrite HR, Htop, Z.pow_add_r by lia.
      change (2 ^ 53) with (2 ^ 52 * 2 ^ 1). ring.
  - exists m, e. split; [lia|]. split; [|now rewrite HR].
    split; [lia|].
    destruct (Z.eq_dec e 0) as [->|Hpos]; [lia|].
    specialize (Hnormal ltac:(lia)).
    assert (2 ^ (52 + e) < 2 ^ 2098) as Hlt.
    { rewrite Z.pow_add_r by lia. eapply Z.le_lt_trans; [|exact Hfin].
      rewrite HR. apply Z.mul_le_mono_nonneg_r; lia. }
    apply Z.pow_lt_mono_r_iff in Hlt; lia.
Qed.

Lemma truediv_relative_error :
  2 ^ 52 <= U / Z.pos P ->
  (Qabs (Qmake R units - x) * inject_Z (2 ^ 53) <= x)%Q.
Proof.
  intros Hnormal. subst x. rewrite distance_in_units.
  pose proof (ru_half_ulp U (Z.pos P) ltac:(lia)) as Hhalf.
  fold R in Hhalf.
  pose proof (binade_nonneg (U / Z.pos P)) as He.
  set (e := binade (U / Z.pos P)) in *.
  assert (0 < 2 ^ e) as Hpe by (apply Z.pow_pos_nonneg; lia).
  assert (Z.pos P * 2 ^ e * 2 ^ 52 <= U) as Hulp.
  { destruct (Z.eq_dec e 0) as [He0|He0].
    - rewrite He0, Z.pow_0_r, Z.mul_1_r.
      pose proof (Z.mul_div_le U (Z.pos P) ltac:(lia)). nia.
    - pose proof (binade_lower (U / Z.pos P) ltac:(fold e; lia)) as Hlow. fold e in Hlow.
      pose proof (Z.mul_div_le (U / Z.pos P) (2 ^ e) Hpe).
      pose proof (Z.mul_div_le U (Z.pos P) ltac:(lia)).
      assert (2 ^ e * 2 ^ 52 <= U / Z.pos P) by nia.
      nia. }
  assert (Z.abs (R * Z.pos P - U) * 2 ^ 53 <= U) as Hrel.
  { change (2 ^ 53) with (2 * 2 ^ 52). nia. }
  unfold Qdiv, Qinv, inject_Z. cbn [Qnum Qden]. unfold Qle, Qmult. cbn [Qnum Qden].
  rewrite !Pos.mul_1_l, !Pos.mul_1_r, !Z.mul_1_r. rewrite Pos2Z.inj_mul.
  subst U. nia.
Qed.

Lemma truediv_overflow_far : 2 ^ 2098 <= R -> (inject_Z (2 ^ 1023) <= x)%Q.
Proof.
  intros Hinf.
  pose proof (ru_mantissa U (Z.pos P) truediv_units_nonneg ltac:(lia)) as [[Hm0 Hm] Hnormal].
  pose proof (ru_value U (Z.pos P)) as HR. fold R in HR.
  pose proof (binade_nonneg (U / Z.pos P)) as He.
  pose proof (fun H => binade_lower (U / Z.pos P) H) as Hlow.
  set (e := binade (U / Z.pos P)) in *.
  set (m := round_half_even U (Z.pos P * 2 ^ e)) in *.
  assert (0 < 2 ^ e) as Hpe by (apply Z.pow_pos_nonneg; lia).
  assert (2045 <= e) as Hbig.
  { destruct (Z_le_gt_dec 2045 e) as [|Hsmall]; [assumption|exfalso].
    assert (2 ^ 53 * 2 ^ e <= 2 ^ 53 * 2 ^ 2044)
      by (apply Z.mul_le_mono_nonneg_l; [lia|apply Z.pow_le_mono_r; lia]).
    assert (m * 2 ^ e <= 2 ^ 53 * 2 ^ e) by (apply Z.mul_le_mono_nonneg_r; lia).
    assert (2 ^ 53 * 2 ^ 2044 < 2 ^ 2098)
      by (rewrite <- Z.pow_add_r by lia; apply Z.pow_lt_mono_r; lia).
    lia. }
  specialize (Hlow ltac:(lia)).
  assert (2 ^ 52 * 2 ^ 2045 <= 2 ^ 52 * 2 ^ e)
    by (apply Z.mul_le_mono_nonneg_l; [lia|apply Z.pow_le_mono_r; lia]).
  pose proof (Z.mul_div_le (U / Z.pos P) (2 ^ e) Hpe).
  pose proof (Z.mul_div_le U (Z.pos P) ltac:(lia)).
  assert (2 ^ 52 * 2 ^ 2045 <= U / Z.pos P) by nia.
  assert (2 ^ 1023 * Z.pos units = 2 ^ 52 * 2 ^ 2045) as Hsplit
    by (rewrite units_value, <- !Z.pow_add_r by lia; reflexivity).
  assert (2 ^ 1023 * Z.pos units * Z.pos P <= a * Z.pos units) as Hfar by (fold U; nia).
  assert (2 ^ 1023 * Z.pos P <= a) as Hq.
  { apply (Z.mul_le_mono_pos_r _ _ (Z.pos units)); [lia|]. lia. }
  subst x. unfold Qdiv, Qinv, inject_Z. cbn [Qnum Qden]. unfold Qle, Qmult. cbn [Qnum Qden].
  rewrite !Pos.mul_1_l, !Z.mul_1_r. exact Hq.
Qed.

Lemma truediv_in_range : a < 2 ^ 126 -> R < 2 ^ 2098.
Proof.
  intros Hsmall.
  pose proof (ru_mantissa U (Z.pos P) truediv_units_nonneg ltac:(lia)) as [[Hm0 Hm] _].
  pose proof (ru_value U (Z.pos P)) as HR. fold R in HR.
  pose proof (binade_nonneg (U / Z.pos P)) as He.
  assert (binade (U / Z.pos P) <= 1148) as Hbound.
  { unfold binade.
    assert (Z.log2 (U / Z.pos P) <= 1199); [|lia].
    assert (U / Z.pos P <= U) as Hle
      by (apply Z.div_le_upper_bound; [lia|pose proof truediv_units_nonneg; nia]).
    assert (U < 2 ^ 1200) as HU.
    { subst U. rewrite units_value. change (2 ^ 1200) with (2 ^ 126 * 2 ^ 1074).
      apply Z.mul_lt_mono_pos_r; [apply Z.pow_pos_nonneg; lia|exact Hsmall]. }
    destruct (Z_le_gt_dec (U / Z.pos P) 0) as [Hz|Hz];
      [rewrite Z.log2_nonpos by lia; lia|].
    assert (Z.log2 (U / Z.pos P) < 1200); [|lia].
    apply Z.log2_lt_pow2; lia. }
  set (e := binade (U / Z.pos P)) in *.
  set (m := round_half_even U (Z.pos P * 2 ^ e)) in *.
  assert (0 < 2 ^ e) as Hpe by (apply Z.pow_pos_nonneg; lia).
  rewrite HR.
  apply Z.le_lt_trans with (2 ^ 53 * 2 ^ 1148).
  - apply Z.le_trans with (2 ^ 53 * 2 ^ e); [apply Z.mul_le_mono_nonneg_r; lia|].
    apply Z.mul_le_mono_nonneg_l; [lia|apply Z.pow_le_mono_r; lia].
  - rewrite <- Z.pow_add_r by lia. apply Z.pow_lt_mono_r; lia.
Qed.

End TrueDivision.

(** ** The loop body of [draw_contours] *)

Section DrawFacts.

Context {ndarray found contour : Type} `{cv : !Cv2 ndarray found contour}.

Implicit Types (c : contour) (cnts : list contour) (w : @world ndarray) (min : Q).

Lemma passes_filtersb_true min c :
  passes_filtersb min c = true <-> passes_filters min c.
Proof.
  unfold passes_filtersb, passes_filters.
  rewrite andb_true_iff, !Qgtb_gt. reflexivity.
Qed.

Lemma passes_filtersb_false min c :
  passes_filtersb min c = false <-> ~ passes_filters min c.
Proof.
  rewrite <- passes_filtersb_true. destruct (passes_filtersb min c); intuition congruence.
Qed.

Lemma degenerateb_true c : degenerateb c = true <-> degenerate c.
Proof. apply Qeq_bool_iff. Qed.

(** The message of the f-string is the one of the specification. *)
Lemma center_message (p : Z * Z) :
  "Center coordinates: " ++ py_str_pair p
  = "Center coordinates: (" ++ py_str_int (fst p) ++ ", " ++ py_str_int (snd p) ++ ")".
Proof. reflexivity. Qed.

(** A contour that fails a test: nothing happens. *)
Lemma draw_contour_rejected min c w :
  ~ passes_filters min c -> draw_contour min c w = (Ok (), w).
Proof.
  intros Hno. apply passes_filtersb_false in Hno.
  unfold passes_filtersb, radius_of in Hno. unfold draw_contour.
  destruct (Qgtb (contourArea c) min); [|reflexivity].
  destruct (minEnclosingCircle c) as [[x y] radius]. cbn in Hno.
  rewrite Hno. reflexivity.
Qed.

(** A contour that passes both tests: the outline circle is drawn and the
    quotients are evaluated. *)
Lemma draw_contour_passed min c w :
  passes_filters min c ->
  draw_contour min c w =
    (cx ← lift (py_truediv (m10 (moments c)) (m00 (moments c)));
     cy ← lift (py_truediv (m01 (moments c)) (m00 (moments c)));
     _ ← cv2_circle (py_int cx, py_int cy) 5 (0, 0, 255) (-1);
     logger_info ("Center coordinates: " ++ py_str_pair (py_int cx, py_int cy)))
    (outline_only c w).
Proof.
  intros Hyes. apply passes_filtersb_true in Hyes.
  unfold passes_filtersb, radius_of in Hyes.
  apply andb_true_iff in Hyes as [Harea Hradius].
  unfold draw_contour, outline_only, outline_circle. rewrite Harea.
  destruct (minEnclosingCircle c) as [[x y] radius]. cbn in Hradius.
  rewrite Hradius. reflexivity.
Qed.

Lemma draw_contour_accepted min c w :
  passes_filters min c -> ~ degenerate c ->
  draw_contour min c w = (Ok (), annotate c w).
Proof.
  intros Hyes Hm. rewrite draw_contour_passed by assumption.
  unfold mbind, Py_bind, lift.
  rewrite !py_truediv_defined by assumption.
  reflexivity.
Qed.

Lemma draw_contour_faulty min c w :
  passes_filters min c -> degenerate c ->
  draw_contour min c w = (Raise ZeroDivisionError, outline_only c w).
Proof.
  intros Hyes Hm. rewrite draw_contour_passed by assumption.
  unfold mbind, Py_bind, lift.
  rewrite py_truediv_by_zero by assumption.
  reflexivity.
Qed.

(** An annotation always adds a record to the log, so it is never the
    identity. *)
Lemma annotate_changes c w : annotate c w <> w.
Proof.
  intros E. apply (f_equal log_stream) in E. cbn in E.
  apply (f_equal (@length _)) in E. rewrite length_app in E. cbn in E. lia.
Qed.

Lemma outline_only_not_annotate c w : outline_only c w <> annotate c w.
Proof.
  intros E. apply (f_equal log_stream) in E. cbn in E.
  apply (f_equal (@length _)) in E. rewrite length_app in E. cbn in E. lia.
Qed.

End DrawFacts.

(** ** The loop of [draw_contours] *)

Section LoopFacts.

Context {ndarray found contour : Type} `{cv : !Cv2 ndarray found contour}.

Implicit Types (c : contour) (cnts : list contour) (w : @world ndarray) (min : Q).

Lemma for_each_app {A} (l1 l2 : list A) (body : A -> Py unit) w :
  for_each (l1 ++ l2) body w =
    match for_each l1 body w with
    | (Ok _, w1) => for_each l2 body w1
    | (Raise e, w1) => (Raise e, w1)
    end.
Proof.
  revert w. induction l1 as [|x l1 IH]; intros w; [reflexivity|].
  cbn [for_each app]. unfold mbind, Py_bind.
  destruct (body x w) as [[[]|e] w1]; [apply IH|reflexivity].
Qed.

Lemma annotate_all_nil min w : annotate_all min [] w = w.
Proof. reflexivity. Qed.

Lemma annotate_all_cons min c cnts w :
  annotate_all min (c :: cnts) w =
    annotate_all min cnts (if passes_filtersb min c then annotate c w else w).
Proof.
  unfold annotate_all. cbn [List.filter].
  destruct (passes_filtersb min c); reflexivity.
Qed.

Lemma annotate_all_log min cnts w :
  log_stream (annotate_all min cnts w) =
    (log_stream w ++ List.map center_record (List.filter (passes_filtersb min) cnts))%list.
Proof.
  revert w. induction cnts as [|c cnts IH]; intros w.
  - cbn. now rewrite app_nil_r.
  - rewrite annotate_all_cons, IH. cbn [List.filter].
    destruct (passes_filtersb min c); [|reflexivity].
    cbn. now rewrite <- app_assoc.
Qed.

(** When every contour that passes has a centroid, the loop runs to its end
    and annotates exactly the contours that pass. *)
Lemma for_each_completes min cnts w :
  centroids_defined min cnts ->
  for_each cnts (draw_contour min) w = (Ok (), annotate_all min cnts w).
Proof.
  intros Hall. revert w. induction Hall as [|c cnts Hc _ IH]; intros w.
  - reflexivity.
  - cbn [for_each]. unfold mbind, Py_bind. rewrite annotate_all_cons.
    destruct (passes_filtersb min c) eqn:E.
    + apply passes_filtersb_true in E.
      rewrite draw_contour_accepted by auto. apply IH.
    + apply passes_filtersb_false in E.
      rewrite draw_contour_rejected by auto. apply IH.
Qed.

(** The loop stops at the first contour that passes both tests and has no
    centroid. *)
Lemma for_each_stops min before c after w :
  centroids_defined min before -> passes_filters min c -> degenerate c ->
  for_each (before ++ c :: after) (draw_contour min) w =
    (Raise ZeroDivisionError, outline_only c (annotate_all min before w)).
Proof.
  intros Hbefore Hyes Hm.
  rewrite for_each_app, for_each_completes by assumption.
  cbn [for_each]. unfold mbind, Py_bind.
  now rewrite draw_contour_faulty.
Qed.

(** A list of contours either has all its centroids, or has a first contour
    without one. *)
Lemma first_degenerate min cnts :
  centroids_defined min cnts \/
  exists before c after,
    cnts = (before ++ c :: after)%list /\ centroids_defined min before /\
    passes_filters min c /\ degenerate c.
Proof.
  induction cnts as [|c cnts IH].
  - left. constructor.
  - destruct (passes_filtersb min c && degenerateb c) eqn:E.
    + apply andb_true_iff in E as [Hyes Hm].
      apply passes_filtersb_true in Hyes. apply degenerateb_true in Hm.
      right. exists [], c, cnts. repeat split; [constructor|apply Hyes..|exact Hm].
    + assert (passes_filters min c -> ~ degenerate c) as Hc.
      { intros Hyes Hm. apply passes_filtersb_true in Hyes.
        apply degenerateb_true in Hm. rewrite Hyes, Hm in E. discriminate. }
      destruct IH as [Hall | (before & c' & after & -> & Hbefore & Hyes & Hm)].
      * left. now constructor.
      * right. exists (c :: before), c', after.
        repeat split; [now constructor|apply Hyes..|exact Hm].
Qed.

Lemma draw_contours_run (frame : ndarray) cnts min log :
  draw_contours frame cnts min log =
    match for_each cnts (draw_contour min) (World frame log) with
    | (Ok _, w') => (Ok (frame_buf w'), w')
    | (Raise e, w') => (Raise e, w')
    end.
Proof. reflexivity. Qed.

Lemma draw_contours_completes min (frame : ndarray) cnts log :
  centroids_defined min cnts ->
  let w := World frame log in
  draw_contours frame cnts min log =
    (Ok (frame_buf (annotate_all min cnts w)), annotate_all min cnts w).
Proof.
  intros Hall. now rewrite draw_contours_run, for_each_completes.
Qed.

Lemma draw_contours_stops min (frame : ndarray) before c after log :
  centroids_defined min before -> passes_filters min c -> degenerate c ->
  draw_contours frame (before ++ c :: after) min log =
    (Raise ZeroDivisionError,
     outline_only c (annotate_all min before (World frame log))).
Proof.
  intros Hbefore Hyes Hm. now rewrite draw_contours_run, for_each_stops.
Qed.

Lemma centroids_defined_app min l1 l2 :
  centroids_defined min (l1 ++ l2) <->
  centroids_defined min l1 /\ centroids_defined min l2.
Proof. apply Forall_app. Qed.

End LoopFacts.

(** ** [process_frame] and the colour table *)

Section FrameFacts.

Context {ndarray found contour : Type} `{cv : !Cv2 ndarray found contour}.

Lemma subscript_Some {V} (d : gmap string V) k v : d !! k = Some v -> subscript d k = Ok v.
Proof. intros H. unfold subscript. now rewrite H. Qed.

Lemma subscript_None {V} (d : gmap string V) k :
  d !! k = None -> subscript d k = Raise (KeyError k).
Proof. intros H. unfold subscript. now rewrite H. Qed.

Lemma process_frame_missing (frame : ndarray) cb key min :
  cb !! key = None -> process_frame frame cb key min = Raise (KeyError key).
Proof.
  intros H. unfold process_frame. now rewrite (subscript_None _ _ H).
Qed.

Lemma process_frame_found (frame : ndarray) cb key min entry lower upper :
  cb !! key = Some entry ->
  entry !! "lower" = Some lower ->
  entry !! "upper" = Some upper ->
  process_frame frame cb key min =
    Ok (frame, external_contours (mask_builder frame lower upper)).
Proof.
  intros Hentry Hlower Hupper. unfold process_frame.
  rewrite (subscript_Some _ _ _ Hentry). cbn.
  rewrite (subscript_Some _ _ _ Hlower), (subscript_Some _ _ _ Hupper).
  reflexivity.
Qed.

End FrameFacts.

Lemma color_bounds_supported key :
  In key supported_colors ->
  exists entry lower upper,
    color_bounds !! key = Some entry /\
    entry !! "lower" = Some lower /\
    entry !! "upper" = Some upper.
Proof.
  unfold supported_colors. cbn [In].
  intros [<-|[<-|[<-|[<-|[<-|[<-|[<-|[]]]]]]]];
    eexists _, _, _; repeat split; vm_compute; reflexivity.
Qed.

Lemma color_bounds_unsupported key :
  ~ In key supported_colors -> color_bounds !! key = None.
Proof.
  intros Hno. unfold color_bounds.
  apply not_elem_of_list_to_map_1. cbn.
  rewrite list_elem_of_In. exact Hno.
Qed.

(** ** One turn of the loop of [main] *)

Section MainFacts.

Context {ndarray found contour : Type} `{cv : !Cv2 ndarray found contour}.

Lemma main_loop_turn color (frame : ndarray) camera d :
  main_loop color (frame :: camera) d =
    let resized := resize frame (640, 480) in
    let min := get_min_contour_area (snd (fst (shape resized))) (fst (fst (shape resized))) in
    match process_frame resized color_bounds color min with
    | Raise e => (Raise e, d)
    | Ok (f, cnts) =>
      match draw_contours f cnts min (logged d) with
      | (Raise e, w) =>
        (Raise e, Desk (keyboard d) (window d) (log_stream w) (cleaned_up d))
      | (Ok shown, w) =>
        let '(key, d') :=
          waitKey (imshow shown (Desk (keyboard d) (window d) (log_stream w) (cleaned_up d))) in
        if Z.land key 255 =? 113 then (Ok (), d') else main_loop color camera d'
      end
    end.
Proof.
  cbn [main_loop]. destruct (shape (resize frame (640, 480))) as [[rows cols] ch].
  reflexivity.
Qed.

Lemma main_loop_exhausted color d :
  main_loop color ([] : list ndarray) d = (Ok (), d).
Proof. reflexivity. Qed.

End MainFacts.

(** ** The small implementation *)

Lemma sketch_external_outermost (mask : Sketch.image) method c :
  In c (grab_contours (findContours mask RETR_EXTERNAL method)) ->
  Sketch.is_outermost mask c.
Proof.
  cbn. intros Hin. apply in_map_iff in Hin as (r & <- & Hr).
  apply filter_In in Hr as [Hr Hdepth].
  exists r. repeat split; [exact Hr|].
  unfold Sketch.outermost in Hdepth. now apply Nat.eqb_eq.
Qed.


(** * The statements of the specification *)

Lemma get_min_contour_area_float_cases (a : Z) :
  0 <= a ->
  let R := round_units (a * Z.pos units) 1000 in
  (R < 2 ^ 2098 /\ py_int_truediv a 1000 = Ok (Qmake R units)) \/
  (2 ^ 2098 <= R /\ py_int_truediv a 1000 = Raise OverflowError).
Proof.
  intros Ha R. destruct (Z_lt_le_dec R (2 ^ 2098)) as [Hfin|Hinf].
  - left. split; [exact Hfin|]. now apply py_int_truediv_finite.
  - right. split; [exact Hinf|]. now apply py_int_truediv_overflow.
Qed.

Lemma get_min_contour_area_float_mono (a a' : Z) (r' : Q) :
  0 <= a -> a <= a' ->
  py_int_truediv a' 1000 = Ok r' ->
  exists r, py_int_truediv a 1000 = Ok r /\ (r <= r')%Q.
Proof.
  intros Ha Hle Hrun'.
  assert (round_units (a * Z.pos units) 1000 <= round_units (a' * Z.pos units) 1000) as Hmono.
  { apply round_units_mono; [|apply Z.mul_le_mono_nonneg_r|]; lia. }
  destruct (get_min_contour_area_float_cases a' ltac:(lia)) as [[Hfin' Hok']|[_ Hbad]];
    [|rewrite Hbad in Hrun'; discriminate].
  rewrite Hok' in Hrun'. injection Hrun' as <-.
  destruct (get_min_contour_area_float_cases a Ha) as [[_ Hok]|[Hinf _]]; [|lia].
  eexists. split; [exact Hok|]. now apply Qmake_le_same.
Qed.

(** C2, as amended.  For frame dimensions [w] and [h] that are not negative,
    [get_min_contour_area] returns the binary64 number nearest to the exact
    quotient of [w * h] by 1000: no finite binary64 number is nearer, and the
    relative error is at most [2 ^ -53].  Nothing is truncated to an integer.
    It raises [OverflowError], and nothing else, only when the quotient is
    beyond the floats (at least [2 ^ 1023]), which no dimensions below
    [2 ^ 63] reach.  It is a function of its two arguments alone, and the
    value returned does not decrease when either of them grows. *)
Theorem get_min_contour_area_float_rounds (w h : Z) :
  0 <= w -> 0 <= h ->
  let x := get_min_contour_area w h in
  match get_min_contour_area_float w h with
  | Ok r =>
    is_binary64 r /\
    (forall f, is_binary64 f -> (Qabs (r - x) <= Qabs (f - x))%Q) /\
    (Qabs (r - x) * inject_Z (2 ^ 53) <= x)%Q
  | Raise e => e = OverflowError /\ (inject_Z (2 ^ 1023) <= x)%Q
  end /\
  (w < 2 ^ 63 -> h < 2 ^ 63 -> exists r, get_min_contour_area_float w h = Ok r) /\
  (forall w' r', w <= w' -> get_min_contour_area_float w' h = Ok r' ->
     exists r, get_min_contour_area_float w h = Ok r /\ (r <= r')%Q) /\
  (forall h' r', h <= h' -> get_min_contour_area_float w h' = Ok r' ->
     exists r, get_min_contour_area_float w h = Ok r /\ (r <= r')%Q).
Proof.
  intros Hw Hh x. unfold get_min_contour_area_float.
  assert (0 <= w * h) as Ha by nia.
  split; [|split; [|split]].
  - subst x. unfold get_min_contour_area.
    destruct (get_min_contour_area_float_cases (w * h) Ha) as [[Hfin ->]|[Hinf ->]].
    + split; [now apply truediv_representable|].
      split; [intros f Hf; now apply (truediv_nearest (w * h) 1000 Ha)|].
      destruct (Z.eq_dec (w * h) 0) as [Hzero|Hpos].
      * rewrite Hzero, Z.mul_0_l, round_units_zero by lia. discriminate.
      * apply (truediv_relative_error (w * h) 1000 Ha).
        apply Z.div_le_lower_bound; [lia|].
        apply Z.le_trans with (1 * Z.pos units); [now vm_compute|].
        apply Z.mul_le_mono_nonneg_r; lia.
    + split; [reflexivity|]. now apply (truediv_overflow_far (w * h) 1000 Ha).
  - intros Hw63 Hh63.
    destruct (get_min_contour_area_float_cases (w * h) Ha) as [[_ Hok]|[Hinf _]];
      [eexists; exact Hok|].
    assert (w * h < 2 ^ 126) as Hsmall.
    { change (2 ^ 126) with (2 ^ 63 * 2 ^ 63).
      apply Z.le_lt_trans with (w * 2 ^ 63); [apply Z.mul_le_mono_nonneg_l; lia|].
      apply Z.mul_lt_mono_pos_r; lia. }
    pose proof (truediv_in_range (w * h) 1000 Ha Hsmall). lia.
  - intros w' r' Hle. apply get_min_contour_area_float_mono; [exact Ha|nia].
  - intros h' r' Hle. apply get_min_contour_area_float_mono; [exact Ha|nia].
Qed.

(** A frame of 640 by 480: the threshold is the float nearest to 307.2. *)
Lemma get_min_contour_area_float_rounds_witness :
  let x := get_min_contour_area 640 480 in
  match get_min_contour_area_float 640 480 with
  | Ok r =>
    is_binary64 r /\
    (forall f, is_binary64 f -> (Qabs (r - x) <= Qabs (f - x))%Q) /\
    (Qabs (r - x) * inject_Z (2 ^ 53) <= x)%Q
  | Raise e => e = OverflowError /\ (inject_Z (2 ^ 1023) <= x)%Q
  end /\
  (640 < 2 ^ 63 -> 480 < 2 ^ 63 -> exists r, get_min_contour_area_float 640 480 = Ok r) /\
  (forall w' r', 640 <= w' -> get_min_contour_area_float w' 480 = Ok r' ->
     exists r, get_min_contour_area_float 640 480 = Ok r /\ (r <= r')%Q) /\
  (forall h' r', 480 <= h' -> get_min_contour_area_float 640 h' = Ok r' ->
     exists r, get_min_contour_area_float 640 480 = Ok r /\ (r <= r')%Q).
Proof.
  apply (get_min_contour_area_float_rounds 640 480); lia.
Defined.

Section Statements.

Context {ndarray found contour : Type} `{cv : !Cv2 ndarray found contour}.

Implicit Types (c : contour) (cnts : list contour) (w : @world ndarray) (min : Q).

(** C7.  With no contour at all, [draw_contours] returns the frame as it
    was and hands nothing to the logger. *)
Theorem draw_contours_nothing_to_draw (frame : ndarray) min log :
  draw_contours frame [] min log = (Ok frame, World frame log).
Proof. reflexivity. Qed.

(** C9.  [process_frame] does not look at [min_contour_area]: two calls
    that differ in that argument only return the same outcome. *)
Theorem process_frame_ignores_min_contour_area (frame : ndarray) cb key (a b : Q) :
  process_frame frame cb key a = process_frame frame cb key b.
Proof. reflexivity. Qed.

(** C5.  A colour that is not a key of the table makes [process_frame]
    raise [KeyError] for that key, whatever the table; with the table of
    the program that is every colour outside the seven configured ones,
    and for each of the seven [process_frame] returns the frame and a list
    of contours. *)
Theorem process_frame_color_lookup (frame : ndarray) key min :
  (forall cb : gmap string (gmap string (list Z)),
      cb !! key = None -> process_frame frame cb key min = Raise (KeyError key)) /\
  (~ In key supported_colors ->
      process_frame frame color_bounds key min = Raise (KeyError key)) /\
  (In key supported_colors ->
      exists cnts, process_frame frame color_bounds key min = Ok (frame, cnts)).
Proof.
  split; [|split].
  - intros cb. apply process_frame_missing.
  - intros Hno. apply process_frame_missing. now apply color_bounds_unsupported.
  - intros Hyes.
    destruct (color_bounds_supported key Hyes) as (entry & lower & upper & He & Hl & Hu).
    eexists. exact (process_frame_found frame _ key min entry lower upper He Hl Hu).
Qed.

Section ExternalOnly.

(** What the library promises for [RETR_EXTERNAL]: every contour it
    returns for a mask is an outermost contour of that mask. *)
Variable outermost_in : ndarray -> contour -> Prop.
Hypothesis RETR_EXTERNAL_outermost : forall mask method c,
  In c (grab_contours (findContours mask RETR_EXTERNAL method)) ->
  outermost_in mask c.

(** C6.  For a colour of the table, [process_frame] returns the frame it
    was given and the external contours of the mask obtained by these
    steps in this order: Gaussian blur with an 11 by 11 kernel,
    conversion from BGR to HSV, threshold between the bounds of the
    colour, erosion with 2 iterations, dilation with 2 iterations.  All
    the contours returned are outermost contours of that mask. *)
Theorem process_frame_steps (frame : ndarray) cb key min entry lower upper :
  cb !! key = Some entry ->
  entry !! "lower" = Some lower ->
  entry !! "upper" = Some upper ->
  let mask :=
    dilate
      (erode
         (inRange (cvtColor (GaussianBlur frame (11, 11) 0) COLOR_BGR2HSV) lower upper)
         None 2)
      None 2 in
  mask = mask_builder frame lower upper /\
  process_frame frame cb key min =
    Ok (frame, grab_contours (findContours (ndarray_copy mask) RETR_EXTERNAL CHAIN_APPROX_SIMPLE)) /\
  forall cnts, process_frame frame cb key min = Ok (frame, cnts) ->
    Forall (outermost_in (ndarray_copy mask)) cnts.
Proof.
  intros He Hl Hu mask.
  pose proof (process_frame_found frame cb key min entry lower upper He Hl Hu) as Hrun.
  split; [reflexivity|]. split; [exact Hrun|].
  intros cnts Hcnts. rewrite Hrun in Hcnts. injection Hcnts as <-.
  apply List.Forall_forall. intros c Hc.
  apply (RETR_EXTERNAL_outermost _ CHAIN_APPROX_SIMPLE). exact Hc.
Qed.

End ExternalOnly.

End Statements.

Lemma process_frame_color_lookup_witness :
  process_frame Sketch.blue_scene color_bounds "purple" 307.2%Q = Raise (KeyError "purple") /\
  exists cnts, process_frame Sketch.blue_scene color_bounds "blue" 307.2%Q
               = Ok (Sketch.blue_scene, cnts).
Proof.
  split.
  - destruct (process_frame_color_lookup Sketch.blue_scene "purple" 307.2%Q)
      as (_ & Houtside & _).
    apply Houtside. cbn. intuition discriminate.
  - destruct (process_frame_color_lookup Sketch.blue_scene "blue" 307.2%Q)
      as (_ & _ & Hinside).
    apply Hinside. cbn. auto.
Defined.

Lemma process_frame_steps_witness :
  process_frame Sketch.blue_scene color_bounds "blue" 307.2%Q
    = Ok (Sketch.blue_scene, [Sketch.disk50]) /\
  Forall (Sketch.is_outermost (Sketch.in_range Sketch.blue_scene [100; 50; 50] [130; 255; 255]))
         [Sketch.disk50].
Proof.
  destruct (process_frame_steps Sketch.is_outermost sketch_external_outermost
              Sketch.blue_scene color_bounds "blue" 307.2%Q
              (hsv_entry [100; 50; 50] [130; 255; 255]) [100; 50; 50] [130; 255; 255])
    as (_ & Hrun & Hout); [vm_compute; reflexivity..|].
  split; [exact Hrun|]. apply Hout. exact Hrun.
Defined.

Section Detections.

Context {ndarray found contour : Type} `{cv : !Cv2 ndarray found contour}.

Implicit Types (c : contour) (cnts : list contour) (w : @world ndarray) (min : Q).

(** C1, as amended.  When every contour of the list that passes both tests
    has a non-zero [m00], the loop of [draw_contours] reaches every contour
    [c] of the list, and what it does with [c] is the full annotation
    (outline circle, centroid dot, log record) if and only if the area of
    [c] is greater than [min_contour_area] and its radius greater than 10;
    a contour with a smaller or equal area or radius leaves the frame and
    the log as they were. *)
Theorem contour_accepted_iff_passes (frame : ndarray) cnts min log :
  centroids_defined min cnts ->
  forall before c after, cnts = (before ++ c :: after)%list ->
  exists w1 w2 w3,
    for_each before (draw_contour min) (World frame log) = (Ok (), w1) /\
    draw_contour min c w1 = (Ok (), w2) /\
    for_each after (draw_contour min) w2 = (Ok (), w3) /\
    draw_contours frame cnts min log = (Ok (frame_buf w3), w3) /\
    (w2 = annotate c w1 <->
       (min < contourArea c)%Q /\ (10 < snd (minEnclosingCircle c))%Q) /\
    ((contourArea c <= min)%Q \/ (snd (minEnclosingCircle c) <= 10)%Q -> w2 = w1).
Proof.
  intros Hall before c after ->.
  apply centroids_defined_app in Hall as [Hbefore Hrest].
  pose proof Hrest as Hrest'. apply Forall_cons_1 in Hrest' as [Hc Hafter].
  set (w1 := annotate_all min before (World frame log)).
  set (w2 := if passes_filtersb min c then annotate c w1 else w1).
  exists w1, w2, (annotate_all min after w2).
  assert (draw_contour min c w1 = (Ok (), w2)) as Hbody.
  { subst w2. destruct (passes_filtersb min c) eqn:E.
    - apply passes_filtersb_true in E. now apply draw_contour_accepted; auto.
    - apply passes_filtersb_false in E. now apply draw_contour_rejected. }
  split; [now apply for_each_completes|].
  split; [exact Hbody|].
  split; [now apply for_each_completes|].
  split.
  { rewrite draw_contours_run, for_each_app, for_each_completes by assumption.
    fold w1. cbn [for_each]. unfold mbind, Py_bind. rewrite Hbody.
    now rewrite for_each_completes. }
  fold (radius_of c). fold (passes_filters min c).
  subst w2. destruct (passes_filtersb min c) eqn:E.
  - apply passes_filtersb_true in E. split; [tauto|].
    intros [Harea|Hradius]; exfalso; destruct E as [E1 E2].
    + apply (Qlt_not_le _ _ E1 Harea).
    + apply (Qlt_not_le _ _ E2 Hradius).
  - apply passes_filtersb_false in E. split; [|reflexivity].
    split; [|tauto]. intros Heq. symmetry in Heq. now apply annotate_changes in Heq.
Qed.

(** C8, as amended.  When every contour of the list that passes both tests
    has a non-zero [m00], [draw_contours] returns and has handed to the
    logger one record for each contour that passes both tests, in the order
    of the list, and no other; each is at level INFO and its message is
    "Center coordinates: (x, y)" with x and y the integer parts of
    [m10 / m00] and [m01 / m00]. *)
Theorem one_log_record_per_detection (frame : ndarray) cnts min log :
  centroids_defined min cnts ->
  exists w',
    draw_contours frame cnts min log = (Ok (frame_buf w'), w') /\
    log_stream w' =
      (log ++ List.map center_record (List.filter (passes_filtersb min) cnts))%list /\
    (forall c, passes_filtersb min c = true <-> passes_filters min c) /\
    forall c,
      levelname (center_record c) = INFO /\
      message (center_record c) =
        "Center coordinates: ("
          ++ py_str_int (py_int (m10 (moments c) / m00 (moments c))%Q) ++ ", "
          ++ py_str_int (py_int (m01 (moments c) / m00 (moments c))%Q) ++ ")".
Proof.
  intros Hall. exists (annotate_all min cnts (World frame log)).
  split; [now apply draw_contours_completes|].
  split; [apply annotate_all_log|].
  split; [intros c; apply passes_filtersb_true|].
  intros c. split; reflexivity.
Qed.

(** C10.  For a contour that is annotated, the centre and the radius of the
    outline circle are the truncations toward zero of the centre and radius
    of the enclosing circle, and the centroid that is drawn and logged is
    the truncation toward zero of [(m10 / m00, m01 / m00)]; a coordinate of
    319.9 becomes 319 and one of 240.7 becomes 240, not 320 and 241. *)
Theorem coordinates_truncated min c w :
  passes_filters min c -> ~ degenerate c ->
  exists x y radius cx cy : Z,
    truncates (fst (fst (minEnclosingCircle c))) x /\
    truncates (snd (fst (minEnclosingCircle c))) y /\
    truncates (snd (minEnclosingCircle c)) radius /\
    truncates (m10 (moments c) / m00 (moments c))%Q cx /\
    truncates (m01 (moments c) / m00 (moments c))%Q cy /\
    draw_contour min c w =
      (Ok (),
       World (circle (circle (frame_buf w) (x, y) radius (0, 255, 255) 5)
                     (cx, cy) 5 (0, 0, 255) (-1))
             (log_stream w
                ++ [LogRecord INFO ("Center coordinates: (" ++ py_str_int cx ++ ", "
                                      ++ py_str_int cy ++ ")")])%list) /\
    (forall z, truncates 319.9%Q z <-> z = 319) /\
    (forall z, truncates 240.7%Q z <-> z = 240).
Proof.
  intros Hyes Hm.
  exists (py_int (fst (fst (minEnclosingCircle c)))),
         (py_int (snd (fst (minEnclosingCircle c)))),
         (py_int (snd (minEnclosingCircle c))),
         (py_int (m10 (moments c) / m00 (moments c))%Q),
         (py_int (m01 (moments c) / m00 (moments c))%Q).
  repeat (split; [apply py_int_truncates|]).
  split.
  { rewrite draw_contour_accepted by assumption.
    unfold annotate, centroid_dot, outline_circle, center_record, centroid.
    destruct (minEnclosingCircle c) as [[x y] radius]. reflexivity. }
  split; intros z; (split; [intros Hz|intros ->]).
  - apply (truncates_unique 319.9%Q); [exact Hz|apply (py_int_truncates 319.9%Q)].
  - apply (py_int_truncates 319.9%Q).
  - apply (truncates_unique 240.7%Q); [exact Hz|apply (py_int_truncates 240.7%Q)].
  - apply (py_int_truncates 240.7%Q).
Qed.

End Detections.

Section Failure.

Context {ndarray found contour : Type} `{cv : !Cv2 ndarray found contour}.

(** C4, as amended.  Every frame read from the camera either completes
    the pipeline or ends the loop.  If [process_frame] raises, the loop
    ends with that exception and nothing is drawn, logged or shown.
    Otherwise, either every contour that
    passes both tests has a non-zero [m00]: then [draw_contours] returns
    the frame with all those contours annotated and logged, the frame is
    shown, and the loop goes on or stops on the quit key.  Or there is a
    first contour that passes both tests with [m00] zero: then
    [draw_contours] raises [ZeroDivisionError], the loop ends with that
    exception and the frame is not shown; the frame buffer keeps what was
    drawn until then (the annotations of the contours before, and the
    outline circle of that contour) and the log keeps the records already
    made. *)
Theorem frame_completes_or_loop_ends color (frame : ndarray) camera d :
  let resized := resize frame (640, 480) in
  let min := get_min_contour_area (snd (fst (shape resized))) (fst (fst (shape resized))) in
  match process_frame resized color_bounds color min with
  | Raise e => main_loop color (frame :: camera) d = (Raise e, d)
  | Ok (f, cnts) =>
    let w0 := World f (logged d) in
    (centroids_defined min cnts /\
     draw_contours f cnts min (logged d) =
       (Ok (frame_buf (annotate_all min cnts w0)), annotate_all min cnts w0) /\
     main_loop color (frame :: camera) d =
       (let '(key, d') := show_and_poll d (annotate_all min cnts w0) in
        if Z.land key 255 =? 113 then (Ok (), d') else main_loop color camera d'))
    \/
    (exists before c after,
       cnts = (before ++ c :: after)%list /\
       centroids_defined min before /\ passes_filters min c /\ degenerate c /\
       draw_contours f cnts min (logged d) =
         (Raise ZeroDivisionError, outline_only c (annotate_all min before w0)) /\
       main_loop color (frame :: camera) d =
         (Raise ZeroDivisionError,
          Desk (keyboard d) (window d)
               (log_stream (annotate_all min before w0)) (cleaned_up d)))
  end.
Proof.
  cbv zeta. rewrite main_loop_turn. cbv zeta.
  set (resized := resize frame (640, 480)).
  set (min := get_min_contour_area _ _).
  destruct (process_frame resized color_bounds color min) as [[f cnts]|e];
    [|reflexivity].
  set (w0 := World f (logged d)).
  destruct (first_degenerate min cnts)
    as [Hall | (before & c & after & -> & Hbefore & Hyes & Hm)].
  - left. split; [exact Hall|].
    rewrite (draw_contours_completes min f cnts (logged d) Hall).
    split; reflexivity.
  - right. exists before, c, after.
    rewrite (draw_contours_stops min f before c after (logged d) Hbefore Hyes Hm).
    repeat split; try assumption; apply Hyes.
Qed.

End Failure.

(** C3.  [draw_contours] divides by [m00] without looking at it: whatever
    the library computes, a contour that passes both tests and has [m00]
    zero makes the quotient of line 70, and with it [draw_contours], raise
    [ZeroDivisionError].  Such an input exists: a straight stroke, which
    encloses no area, with a negative [min_contour_area]. *)
Theorem division_by_zero_unguarded :
  (forall (ndarray found contour : Type) (cv : Cv2 ndarray found contour)
          (frame : ndarray) (before : list contour) (c : contour)
          (after : list contour) (min : Q) (log : list log_record),
      centroids_defined min before -> passes_filters min c -> degenerate c ->
      py_truediv (m10 (moments c)) (m00 (moments c)) = Raise ZeroDivisionError /\
      fst (draw_contours frame (before ++ c :: after) min log) = Raise ZeroDivisionError) /\
  exists (frame : Sketch.image) (c : Sketch.outline) (min : Q),
    m00 (moments c) = 0%Q /\
    (min < contourArea c)%Q /\ (10 < snd (minEnclosingCircle c))%Q /\
    draw_contours frame [c] min [] =
      (Raise ZeroDivisionError, outline_only c (World frame [])).
Proof.
  split.
  - intros ndarray found contour cv frame before c after min log Hbefore Hyes Hm.
    split; [now apply py_truediv_by_zero|].
    now rewrite draw_contours_stops.
  - exists Sketch.blank, Sketch.segment, (-1)%Q.
    repeat split.
Qed.

Lemma division_by_zero_unguarded_witness :
  fst (draw_contours Sketch.blank [Sketch.disk50; Sketch.segment; Sketch.offcentre]
                     (-1)%Q [])
  = Raise ZeroDivisionError.
Proof.
  destruct division_by_zero_unguarded as [Hno_guard _].
  apply (Hno_guard _ _ _ _ Sketch.blank [Sketch.disk50] Sketch.segment [Sketch.offcentre]).
  - repeat constructor. intros _ Hzero. discriminate Hzero.
  - split; reflexivity.
  - reflexivity.
Defined.

(** C2 as stated fails: the value returned for 17 by 59 is the float
    4517110426252607 / 2 ^ 52, not 1.003 (taken 1000 times it is not 1003),
    and the one for 640 by 480 is 5404319552844595 / 2 ^ 44, not 307.2; with
    a negative height the value decreases when the width grows; and beyond
    the floats the call raises. *)
Lemma get_min_contour_area_exact_counterexample :
  (exists r,
     get_min_contour_area_float 17 59 = Ok r /\
     (r == 4517110426252607 # 4503599627370496)%Q /\ ~ (r * 1000 == 1003)%Q) /\
  (exists r,
     get_min_contour_area_float 640 480 = Ok r /\
     (r == 5404319552844595 # 17592186044416)%Q /\ ~ (r == 307.2)%Q) /\
  (exists r r',
     get_min_contour_area_float 1 (-1) = Ok r /\
     get_min_contour_area_float 2 (-1) = Ok r' /\ (r' < r)%Q) /\
  get_min_contour_area_float (2 ^ 1100) (2 ^ 1100) = Raise OverflowError.
Proof.
  split; [|split; [|split]].
  - eexists. split; [vm_compute; reflexivity|].
    split; [vm_compute; reflexivity|]. vm_compute. discriminate.
  - eexists. split; [vm_compute; reflexivity|].
    split; [vm_compute; reflexivity|]. vm_compute. discriminate.
  - eexists _, _. split; [vm_compute; reflexivity|].
    split; [vm_compute; reflexivity|]. vm_compute. reflexivity.
  - vm_compute. reflexivity.
Qed.

(** C1 as stated fails: the straight stroke passes both tests, and yet is
    not annotated; only its outline circle is drawn, and the call raises. *)
Lemma contour_accepted_counterexample :
  let w := World Sketch.blank [] in
  ((-1 < contourArea Sketch.segment)%Q /\ (10 < snd (minEnclosingCircle Sketch.segment))%Q) /\
  draw_contour (-1)%Q Sketch.segment w <> (Ok (), annotate Sketch.segment w) /\
  draw_contours Sketch.blank [Sketch.segment] (-1)%Q [] =
    (Raise ZeroDivisionError,
     World (Sketch.Image (480, 640, 3) []
              [Sketch.Stroke (15, 0) 15 (0, 255, 255) 5]) []).
Proof.
  cbv zeta. split; [split; reflexivity|]. split; [|reflexivity].
  intros E. discriminate E.
Qed.

(** C4 as stated fails: the call raises at the second contour, and the frame
    buffer is neither the frame it was given nor the fully annotated one; it
    carries the annotation of the first contour and the outline circle of
    the second. *)
Lemma partial_annotation_counterexample :
  let w := World Sketch.blank [] in
  let cnts := [Sketch.disk50; Sketch.segment] in
  exists w',
    draw_contours Sketch.blank cnts (-1)%Q [] = (Raise ZeroDivisionError, w') /\
    frame_buf w' <> frame_buf w /\
    frame_buf w' <> frame_buf (annotate_all (-1)%Q cnts w) /\
    Sketch.i_strokes (frame_buf w') =
      [Sketch.Stroke (320, 240) 50 (0, 255, 255) 5;
       Sketch.Stroke (320, 240) 5 (0, 0, 255) (-1);
       Sketch.Stroke (15, 0) 15 (0, 255, 255) 5].
Proof.
  cbv zeta. eexists. split; [reflexivity|].
  split; [|split; [|reflexivity]]; intros E; discriminate E.
Qed.

(** C8 as stated fails: both contours pass both tests, and the logger
    receives no record at all. *)
Lemma log_record_counterexample :
  let w := World Sketch.blank [] in
  passes_filters (-1)%Q Sketch.segment /\ passes_filters (-1)%Q Sketch.disk50 /\
  draw_contours Sketch.blank [Sketch.segment; Sketch.disk50] (-1)%Q [] =
    (Raise ZeroDivisionError, outline_only Sketch.segment w) /\
  log_stream (outline_only Sketch.segment w) = [].
Proof.
  cbv zeta. repeat split.
Qed.

(** ** The statements on concrete inputs *)

(** Three contours and the threshold of a 640 by 480 frame: the disk and the
    off-centre region are annotated, the speck is not. *)
Lemma contour_accepted_iff_passes_witness :
  let min := get_min_contour_area 640 480 in
  let w := World Sketch.blank [] in
  let c := Sketch.speck in
  exists w1 w2 w3,
    for_each [Sketch.disk50] (draw_contour min) w = (Ok (), w1) /\
    draw_contour min c w1 = (Ok (), w2) /\
    for_each [Sketch.offcentre] (draw_contour min) w2 = (Ok (), w3) /\
    draw_contours Sketch.blank [Sketch.disk50; c; Sketch.offcentre] min []
      = (Ok (frame_buf w3), w3) /\
    (w2 = annotate c w1 <->
       (min < contourArea c)%Q /\ (10 < snd (minEnclosingCircle c))%Q) /\
    ((contourArea c <= min)%Q \/ (snd (minEnclosingCircle c) <= 10)%Q -> w2 = w1).
Proof.
  cbv zeta.
  apply (contour_accepted_iff_passes Sketch.blank
           [Sketch.disk50; Sketch.speck; Sketch.offcentre]
           (get_min_contour_area 640 480) []).
  - repeat constructor; intros _ Hzero; discriminate Hzero.
  - reflexivity.
Defined.

(** The scenario of the specification: one record for the disk centred at
    (320, 240), one for the off-centre region, none for the speck. *)
Lemma one_log_record_per_detection_witness :
  exists w',
    fst (draw_contours Sketch.blank [Sketch.disk50; Sketch.speck; Sketch.offcentre]
                       (get_min_contour_area 640 480) [])
      = Ok (frame_buf w') /\
    log_stream w' =
      [LogRecord INFO "Center coordinates: (320, 240)";
       LogRecord INFO "Center coordinates: (319, 240)"].
Proof.
  destruct (one_log_record_per_detection Sketch.blank
              [Sketch.disk50; Sketch.speck; Sketch.offcentre]
              (get_min_contour_area 640 480) [])
    as (w' & Hrun & Hlog & _).
  - repeat constructor; intros _ Hzero; discriminate Hzero.
  - exists w'. split; [now rewrite Hrun|]. rewrite Hlog. reflexivity.
Defined.

(** A centroid of (319.9, 240.7) is drawn and logged as (319, 240). *)
Lemma coordinates_truncated_witness :
  let min := get_min_contour_area 640 480 in
  let c := Sketch.offcentre in
  let w := World Sketch.blank [] in
  exists x y radius cx cy : Z,
    truncates (fst (fst (minEnclosingCircle c))) x /\
    truncates (snd (fst (minEnclosingCircle c))) y /\
    truncates (snd (minEnclosingCircle c)) radius /\
    truncates (m10 (moments c) / m00 (moments c))%Q cx /\
    truncates (m01 (moments c) / m00 (moments c))%Q cy /\
    draw_contour min c w =
      (Ok (),
       World (circle (circle (frame_buf w) (x, y) radius (0, 255, 255) 5)
                     (cx, cy) 5 (0, 0, 255) (-1))
             (log_stream w
                ++ [LogRecord INFO ("Center coordinates: (" ++ py_str_int cx ++ ", "
                                      ++ py_str_int cy ++ ")")])%list) /\
    (forall z, truncates 319.9%Q z <-> z = 319) /\
    (forall z, truncates 240.7%Q z <-> z = 240).
Proof.
  cbv zeta.
  apply (coordinates_truncated (get_min_contour_area 640 480) Sketch.offcentre
           (World Sketch.blank [])).
  - split; reflexivity.
  - intros Hzero. discriminate Hzero.
Defined.

(** A frame of the blue scene followed by the quit key: the frame completes
    the pipeline. *)
Lemma frame_completes_or_loop_ends_witness :
  let d := Desk [113] [] [] false in
  let f := resize Sketch.blue_scene (640, 480) in
  let cnts := [Sketch.disk50] in
  let min := get_min_contour_area 640 480 in
  let w0 := World f (logged d) in
  (centroids_defined min cnts /\
   draw_contours f cnts min (logged d) =
     (Ok (frame_buf (annotate_all min cnts w0)), annotate_all min cnts w0) /\
   main_loop "blue" [Sketch.blue_scene] d =
     (let '(key, d') := show_and_poll d (annotate_all min cnts w0) in
      if Z.land key 255 =? 113 then (Ok (), d') else main_loop "blue" [] d'))
  \/
  (exists before c after,
     cnts = (before ++ c :: after)%list /\
     centroids_defined min before /\ passes_filters min c /\ degenerate c /\
     draw_contours f cnts min (logged d) =
       (Raise ZeroDivisionError, outline_only c (annotate_all min before w0)) /\
     main_loop "blue" [Sketch.blue_scene] d =
       (Raise ZeroDivisionError,
        Desk (keyboard d) (window d)
             (log_stream (annotate_all min before w0)) (cleaned_up d))).
Proof.
  cbv zeta.
  exact (frame_completes_or_loop_ends "blue" Sketch.blue_scene [] (Desk [113] [] [] false)).
Defined.

(** * Further properties of the code *)

(** ** [draw_contours] over lists *)

Section DrawLists.

Context {ndarray found contour : Type} `{cv : !Cv2 ndarray found contour}.

Implicit Types (c : contour) (cnts : list contour) (w : @world ndarray) (min : Q).

Lemma world_eta w : World (frame_buf w) (log_stream w) = w.
Proof. now destruct w. Qed.

Lemma for_each_rejected_dropped min cnts w :
  for_each (List.filter (passes_filtersb min) cnts) (draw_contour min) w =
  for_each cnts (draw_contour min) w.
Proof.
  revert w. induction cnts as [|c cnts IH]; intros w; [reflexivity|].
  cbn [List.filter]. destruct (passes_filtersb min c) eqn:E.
  - cbn [for_each]. unfold mbind, Py_bind.
    destruct (draw_contour min c w) as [[[]|e] w1]; [apply IH|reflexivity].
  - apply passes_filtersb_false in E. cbn [for_each]. unfold mbind, Py_bind.
    rewrite draw_contour_rejected by assumption. apply IH.
Qed.

Lemma centroids_defined_In min cnts :
  centroids_defined min cnts <->
  ~ exists c, In c cnts /\ passes_filters min c /\ degenerate c.
Proof.
  unfold centroids_defined. rewrite List.Forall_forall. split.
  - intros Hall (c & Hin & Hyes & Hm). exact (Hall c Hin Hyes Hm).
  - intros Hno c Hin Hyes Hm. apply Hno. now exists c.
Qed.

(** The outcome of the loop: it returns, or it raises at the first contour
    that passes both tests and has no centroid. *)
Lemma draw_contours_outcome (frame : ndarray) cnts min log :
  (centroids_defined min cnts /\
   draw_contours frame cnts min log =
     (Ok (frame_buf (annotate_all min cnts (World frame log))),
      annotate_all min cnts (World frame log)))
  \/
  (exists before c after,
     cnts = (before ++ c :: after)%list /\ centroids_defined min before /\
     passes_filters min c /\ degenerate c /\
     draw_contours frame cnts min log =
       (Raise ZeroDivisionError,
        outline_only c (annotate_all min before (World frame log)))).
Proof.
  destruct (first_degenerate min cnts)
    as [Hall | (before & c & after & -> & Hbefore & Hyes & Hm)].
  - left. split; [exact Hall|]. now apply draw_contours_completes.
  - right. exists before, c, after. repeat split; try assumption; try apply Hyes.
    now apply draw_contours_stops.
Qed.

Lemma filter_length_le {A} (p : A -> bool) (l : list A) :
  (length (List.filter p l) <= length l)%nat.
Proof.
  induction l as [|x l IH]; cbn; [lia|]. destruct (p x); cbn; lia.
Qed.

Lemma passes_filters_weaken min min' c :
  (min <= min')%Q -> passes_filters min' c -> passes_filters min c.
Proof.
  intros Hle [Harea Hradius]. split; [|exact Hradius].
  eapply Qle_lt_trans; eassumption.
Qed.

Lemma centroids_defined_weaken min min' cnts :
  (min <= min')%Q -> centroids_defined min cnts -> centroids_defined min' cnts.
Proof.
  intros Hle Hall. unfold centroids_defined in *.
  eapply List.Forall_impl; [|exact Hall].
  intros c Hc Hyes. apply Hc. eapply passes_filters_weaken; eassumption.
Qed.

Lemma records_sublist min min' cnts :
  (min <= min')%Q ->
  sublist (List.map center_record (List.filter (passes_filtersb min') cnts))
          (List.map center_record (List.filter (passes_filtersb min) cnts)).
Proof.
  intros Hle. induction cnts as [|c cnts IH]; [constructor|].
  cbn [List.filter].
  destruct (passes_filtersb min' c) eqn:E'; destruct (passes_filtersb min c) eqn:E; cbn.
  - now apply sublist_skip.
  - apply passes_filtersb_true in E'. apply passes_filtersb_false in E.
    exfalso. apply E. eapply passes_filters_weaken; eassumption.
  - now apply sublist_cons.
  - exact IH.
Qed.

Lemma filter_Permutation_bool {A} (p : A -> bool) (l l' : list A) :
  Permutation l l' -> Permutation (List.filter p l) (List.filter p l').
Proof.
  induction 1 as [|x l l' _ IH|x y l|l l' l'' _ IH _ IH'].
  - constructor.
  - cbn. destruct (p x); [now apply perm_skip|exact IH].
  - cbn. destruct (p x), (p y); try reflexivity. apply perm_swap.
  - now transitivity (List.filter p l').
Qed.

Lemma centroids_defined_Permutation min cnts cnts' :
  Permutation cnts cnts' -> centroids_defined min cnts -> centroids_defined min cnts'.
Proof.
  intros Hperm. unfold centroids_defined. rewrite !List.Forall_forall.
  intros Hall c Hin. apply Hall. eapply Permutation_in; [symmetry|]; eassumption.
Qed.

End DrawLists.

Section DrawProperties.

Context {ndarray found contour : Type} `{cv : !Cv2 ndarray found contour}.

Implicit Types (c : contour) (cnts : list contour) (min : Q).

(** X1.  Drawing a list of contours in two calls, the second on the frame
    and the log the first one left, is the same as drawing it in one call;
    when the first call raises, so does the single call, in the same state. *)
Theorem draw_contours_app (frame : ndarray) (l1 l2 : list contour) min log :
  draw_contours frame (l1 ++ l2) min log =
    match draw_contours frame l1 min log with
    | (Ok frame', w) => draw_contours frame' l2 min (log_stream w)
    | (Raise e, w) => (Raise e, w)
    end.
Proof.
  rewrite !draw_contours_run, for_each_app.
  destruct (for_each l1 (draw_contour min) (World frame log)) as [[[]|e] w1];
    [|reflexivity].
  rewrite draw_contours_run, world_eta. reflexivity.
Qed.

(** X2.  The contours that fail a test play no part: removing them from the
    list beforehand changes neither the outcome, nor the frame, nor the
    log, also when the call raises. *)
Theorem draw_contours_rejected_dropped (frame : ndarray) cnts min log :
  draw_contours frame
    (List.filter (fun c => Qgtb (contourArea c) min && Qgtb (snd (minEnclosingCircle c)) 10)
                 cnts)
    min log
  = draw_contours frame cnts min log.
Proof.
  rewrite !draw_contours_run.
  change (List.filter _ cnts) with (List.filter (passes_filtersb min) cnts).
  now rewrite for_each_rejected_dropped.
Qed.

(** X3.  With library calls that return, the division of line 70 fails,
    and [draw_contours] raises [ZeroDivisionError], exactly when some contour
    of the list has an area above the threshold, a radius above 10 and a
    zero [m00]. *)
Theorem draw_contours_raises_iff (frame : ndarray) cnts min log :
  fst (draw_contours frame cnts min log) = Raise ZeroDivisionError <->
  exists c, In c cnts /\
            (min < contourArea c)%Q /\ (10 < snd (minEnclosingCircle c))%Q /\
            (m00 (moments c) == 0)%Q.
Proof.
  destruct (draw_contours_outcome frame cnts min log)
    as [[Hall ->] | (before & c & after & -> & _ & Hyes & Hm & ->)]; cbn [fst].
  - split; [discriminate|].
    intros (c & Hin & Harea & Hradius & Hm). exfalso.
    apply centroids_defined_In in Hall. apply Hall.
    exists c. repeat split; assumption.
  - split; [|reflexivity].
    intros _. exists c. split; [apply in_elt|].
    destruct Hyes as [Harea Hradius]. repeat split; assumption.
Qed.

(** X4.  The log only grows: whatever the call does, returning or raising,
    the records it was given are still there, in front, followed by at most
    one new record per contour, each at level INFO with a message of the
    form "Center coordinates: (x, y)". *)
Theorem draw_contours_log_grows (frame : ndarray) cnts min log :
  exists new,
    log_stream (snd (draw_contours frame cnts min log)) = (log ++ new)%list /\
    (length new <= length cnts)%nat /\
    Forall (fun r => levelname r = INFO /\
                     exists x y : Z,
                       message r = "Center coordinates: (" ++ py_str_int x ++ ", "
                                     ++ py_str_int y ++ ")") new.
Proof.
  assert (forall l, Forall (fun r => levelname r = INFO /\
                     exists x y : Z,
                       message r = "Center coordinates: (" ++ py_str_int x ++ ", "
                                     ++ py_str_int y ++ ")")
                    (List.map center_record (List.filter (passes_filtersb min) l))) as Hform.
  { intros l. apply List.Forall_forall. intros r Hr.
    apply in_map_iff in Hr as (c & <- & _). split; [reflexivity|].
    now exists (fst (centroid c)), (snd (centroid c)). }
  destruct (draw_contours_outcome frame cnts min log)
    as [[_ ->] | (before & c & after & -> & _ & _ & _ & ->)]; cbn [snd].
  - eexists. split; [apply annotate_all_log|]. split; [|apply Hform].
    rewrite length_map. apply filter_length_le.
  - eexists. unfold outline_only. cbn [log_stream].
    split; [apply annotate_all_log|]. split; [|apply Hform].
    rewrite length_map, length_app.
    pose proof (filter_length_le (passes_filtersb min) before). lia.
Qed.

(** X5.  Raising the threshold never breaks a call that returned: with a
    threshold at least as large the call returns too, and what it logs is a
    sublist of what was logged before (the same records, some left out, in
    the same order). *)
Theorem draw_contours_threshold_raised (frame : ndarray) cnts min min' log f w :
  (min <= min')%Q ->
  draw_contours frame cnts min log = (Ok f, w) ->
  exists f' w',
    draw_contours frame cnts min' log = (Ok f', w') /\
    sublist (log_stream w') (log_stream w).
Proof.
  intros Hle Hrun.
  destruct (draw_contours_outcome frame cnts min log)
    as [[Hall Hok] | (before & c & after & _ & _ & _ & _ & Hfail)];
    [|rewrite Hfail in Hrun; discriminate].
  rewrite Hok in Hrun. injection Hrun as <- <-.
  pose proof (centroids_defined_weaken min min' cnts Hle Hall) as Hall'.
  eexists _, _. split; [now apply draw_contours_completes|].
  rewrite !annotate_all_log. cbn [log_stream].
  apply sublist_app; [reflexivity|]. now apply records_sublist.
Qed.


(** X7.  Reordering the contours reorders the log and does nothing else to
    it: when a call returns, the call on any reordering of the list returns
    too, and the records it logs are the same ones, as many times each, in
    another order.  (The frame is not part of this statement: circles are
    drawn in the order of the list.) *)
Theorem draw_contours_reordered (frame : ndarray) cnts cnts' min log f w :
  Permutation cnts cnts' ->
  draw_contours frame cnts min log = (Ok f, w) ->
  exists f' w',
    draw_contours frame cnts' min log = (Ok f', w') /\
    Permutation (log_stream w) (log_stream w').
Proof.
  intros Hperm Hrun.
  destruct (draw_contours_outcome frame cnts min log)
    as [[Hall Hok] | (before & c & after & _ & _ & _ & _ & Hfail)];
    [|rewrite Hfail in Hrun; discriminate].
  rewrite Hok in Hrun. injection Hrun as <- <-.
  pose proof (centroids_defined_Permutation min cnts cnts' Hperm Hall) as Hall'.
  eexists _, _. split; [now apply draw_contours_completes|].
  rewrite !annotate_all_log. cbn [log_stream].
  apply Permutation_app_head, Permutation_map, filter_Permutation_bool, Hperm.
Qed.

End DrawProperties.

(** ** Numbers and strings *)

Lemma py_int_within (x : Q) (n : Z) :
  (0 <= x)%Q -> (x < inject_Z n)%Q -> 0 <= py_int x < n.
Proof.
  intros Hlo Hhi. destruct (py_int_truncates x) as [Hpos _].
  destruct (Hpos Hlo) as [Hbelow Habove]. split.
  - assert (inject_Z 0 < inject_Z (py_int x + 1))%Q as H
      by (eapply Qle_lt_trans; eassumption).
    rewrite <- Zlt_Qlt in H. lia.
  - assert (inject_Z (py_int x) < inject_Z n)%Q as H
      by (eapply Qle_lt_trans; eassumption).
    now rewrite <- Zlt_Qlt in H.
Qed.

(** The characters of the decimal writing of a number are digits. *)
Lemma string_of_uint_chars (d : Decimal.uint) (s t : string) (ch : Ascii.ascii) :
  NilEmpty.string_of_uint d = s +:+ String ch t ->
  In ch ["0"; "1"; "2"; "3"; "4"; "5"; "6"; "7"; "8"; "9"]%char.
Proof.
  revert s. induction d as [|d IH|d IH|d IH|d IH|d IH|d IH|d IH|d IH|d IH|d IH];
    intros s; cbn [NilEmpty.string_of_uint];
    [destruct s; discriminate|..];
    (destruct s as [|a s]; cbn [String.append];
     [intros [= <- _]; cbn; tauto | intros [= _ H]; exact (IH _ H)]).
Qed.

Lemma py_str_int_chars (n : Z) (s t : string) (ch : Ascii.ascii) :
  py_str_int n = s +:+ String ch t ->
  In ch ["-"; "0"; "1"; "2"; "3"; "4"; "5"; "6"; "7"; "8"; "9"]%char.
Proof.
  unfold py_str_int. destruct (Z.to_int n) as [d|d]; cbn [NilEmpty.string_of_int].
  - intros H. right. exact (string_of_uint_chars d s t ch H).
  - destruct s as [|a s]; cbn [String.append].
    + intros [= <- _]. now left.
    + intros [= _ H]. right. exact (string_of_uint_chars d s t ch H).
Qed.

Lemma py_str_int_inj (n n' : Z) : py_str_int n = py_str_int n' -> n = n'.
Proof.
  unfold py_str_int. intros H. apply to_int_inj.
  apply (f_equal NilEmpty.int_of_string) in H. rewrite !NilEmpty.isi in H.
  now injection H.
Qed.

(** Two strings that do not contain [ch], each followed by [ch]: where they
    are equal, so are the parts on both sides of [ch]. *)
Lemma append_split_at (ch : Ascii.ascii) (a a' r r' : string) :
  (forall s t, a <> s +:+ String ch t) ->
  (forall s t, a' <> s +:+ String ch t) ->
  a +:+ String ch r = a' +:+ String ch r' -> a = a' /\ r = r'.
Proof.
  revert a'. induction a as [|x a IH]; intros [|x' a'] Ha Ha'; cbn [String.append].
  - intros [= ->]. now split.
  - intros [= <- _]. exfalso. now apply (Ha' EmptyString a').
  - intros [= -> _]. exfalso. now apply (Ha EmptyString a).
  - intros [= <- H]. destruct (IH a') as [-> ->]; [| |exact H|now split].
    + intros s t ->. now apply (Ha (String x s) t).
    + intros s t ->. now apply (Ha' (String x s) t).
Qed.

Lemma py_str_int_without (ch : Ascii.ascii) (n : Z) :
  ~ In ch ["-"; "0"; "1"; "2"; "3"; "4"; "5"; "6"; "7"; "8"; "9"]%char ->
  forall s t, py_str_int n <> s +:+ String ch t.
Proof.
  intros Hch s t H. apply Hch. exact (py_str_int_chars n s t ch H).
Qed.

Lemma py_str_pair_inj (p q : Z * Z) : py_str_pair p = py_str_pair q -> p = q.
Proof.
  destruct p as [x y], q as [x' y']. unfold py_str_pair. cbn [fst snd String.append].
  intros [= H].
  apply append_split_at in H as [Hx H];
    [|apply py_str_int_without; cbn; intuition discriminate..].
  cbn [String.append] in H. injection H as H.
  apply append_split_at in H as [Hy _];
    [|apply py_str_int_without; cbn; intuition discriminate..].
  apply py_str_int_inj in Hx, Hy. now subst.
Qed.

Lemma append_inj_l (s t t' : string) : s +:+ t = s +:+ t' -> t = t'.
Proof.
  induction s as [|a s IH]; cbn [String.append]; [tauto|].
  intros [= H]. now apply IH.
Qed.

(** X8.  The message logged for a detection tells its centre: two centres
    give the same message only when they are the same pair of integers. *)
Theorem center_message_injective (p q : Z * Z) :
  "Center coordinates: " ++ py_str_pair p = "Center coordinates: " ++ py_str_pair q
  <-> p = q.
Proof.
  split; [|now intros ->].
  intros H. apply append_inj_l in H. now apply py_str_pair_inj.
Qed.

Lemma center_message_injective_witness :
  "Center coordinates: " ++ py_str_pair (12, -3)
  <> "Center coordinates: " ++ py_str_pair (1, 2 - 3 * 1).
Proof.
  intros H. apply (center_message_injective (12, -3) (1, 2 - 3 * 1)) in H.
  discriminate H.
Defined.


Section FrameProperties.

Context {ndarray found contour : Type} `{cv : !Cv2 ndarray found contour}.

(** X10.  For any table, [process_frame] returns exactly when the colour is
    a key of the table and its entry has both "lower" and "upper"; otherwise
    it raises [KeyError] for the first key that is missing: the colour, then
    "lower", then "upper".  An entry without a bound is an error even though
    the colour is in the table. *)
Theorem process_frame_lookup_errors (frame : ndarray)
    (cb : gmap string (gmap string (list Z))) key min :
  ((exists r, process_frame frame cb key min = Ok r) <->
   exists entry lower upper,
     cb !! key = Some entry /\ entry !! "lower" = Some lower /\
     entry !! "upper" = Some upper) /\
  (cb !! key = None -> process_frame frame cb key min = Raise (KeyError key)) /\
  (forall entry, cb !! key = Some entry -> entry !! "lower" = None ->
     process_frame frame cb key min = Raise (KeyError "lower")) /\
  (forall entry lower, cb !! key = Some entry -> entry !! "lower" = Some lower ->
     entry !! "upper" = None ->
     process_frame frame cb key min = Raise (KeyError "upper")).
Proof.
  assert (forall entry, cb !! key = Some entry -> entry !! "lower" = None ->
            process_frame frame cb key min = Raise (KeyError "lower")) as Hlower.
  { intros entry He Hl. unfold process_frame.
    rewrite (subscript_Some _ _ _ He). cbn. now rewrite (subscript_None _ _ Hl). }
  assert (forall entry lower, cb !! key = Some entry -> entry !! "lower" = Some lower ->
            entry !! "upper" = None ->
            process_frame frame cb key min = Raise (KeyError "upper")) as Hupper.
  { intros entry lower He Hl Hu. unfold process_frame.
    rewrite (subscript_Some _ _ _ He). cbn.
    now rewrite (subscript_Some _ _ _ Hl), (subscript_None _ _ Hu). }
  split; [|split; [apply process_frame_missing|split; [exact Hlower|exact Hupper]]].
  split.
  - intros [r Hr].
    destruct (cb !! key) as [entry|] eqn:He;
      [|rewrite process_frame_missing in Hr by assumption; discriminate].
    destruct (entry !! "lower") as [lower|] eqn:Hl;
      [|rewrite (Hlower entry) in Hr by first [reflexivity|assumption]; discriminate].
    destruct (entry !! "upper") as [upper|] eqn:Hu;
      [|rewrite (Hupper entry lower) in Hr by first [reflexivity|assumption]; discriminate].
    now exists entry, lower, upper.
  - intros (entry & lower & upper & He & Hl & Hu).
    eexists. exact (process_frame_found frame cb key min entry lower upper He Hl Hu).
Qed.

(** X11.  When the centroid of an accepted contour lies inside a frame of
    [W] by [H] pixels, so does the integer centre that is drawn and logged:
    truncation never moves it out of the frame. *)
Theorem centroid_stays_inside (min : Q) (c : contour) (w : @world ndarray) (W H : Z) :
  (min < contourArea c)%Q -> (10 < snd (minEnclosingCircle c))%Q ->
  ~ (m00 (moments c) == 0)%Q ->
  (0 <= m10 (moments c) / m00 (moments c))%Q ->
  (m10 (moments c) / m00 (moments c) < inject_Z W)%Q ->
  (0 <= m01 (moments c) / m00 (moments c))%Q ->
  (m01 (moments c) / m00 (moments c) < inject_Z H)%Q ->
  exists (cx cy : Z) (outlined : ndarray),
    draw_contour min c w =
      (Ok (),
       World (circle outlined (cx, cy) 5 (0, 0, 255) (-1))
             (log_stream w
                ++ [LogRecord INFO ("Center coordinates: " ++ py_str_pair (cx, cy))])%list) /\
    0 <= cx < W /\ 0 <= cy < H.
Proof.
  intros Harea Hradius Hm Hx0 HxW Hy0 HyH.
  exists (py_int (m10 (moments c) / m00 (moments c))%Q),
         (py_int (m01 (moments c) / m00 (moments c))%Q),
         (outline_circle c (frame_buf w)).
  split; [|split; now apply py_int_within].
  rewrite draw_contour_accepted; [reflexivity|now split|exact Hm].
Qed.

End FrameProperties.

Lemma process_frame_lookup_errors_witness :
  process_frame Sketch.blue_scene (<["teal" := <["upper" := [100; 255; 255]]> ∅]> color_bounds)
                "teal" 307.2%Q
  = Raise (KeyError "lower").
Proof.
  destruct (process_frame_lookup_errors Sketch.blue_scene
              (<["teal" := <["upper" := [100; 255; 255]]> ∅]> color_bounds)
              "teal" 307.2%Q) as (_ & _ & Hlower & _).
  apply (Hlower (<["upper" := [100; 255; 255]]> ∅)); vm_compute; reflexivity.
Defined.

Lemma centroid_stays_inside_witness :
  exists (cx cy : Z) (outlined : Sketch.image),
    draw_contour (get_min_contour_area 640 480) Sketch.offcentre (World Sketch.blank []) =
      (Ok (),
       World (circle outlined (cx, cy) 5 (0, 0, 255) (-1))
             [LogRecord INFO ("Center coordinates: " ++ py_str_pair (cx, cy))]) /\
    0 <= cx < 640 /\ 0 <= cy < 480.
Proof.
  apply (centroid_stays_inside (get_min_contour_area 640 480) Sketch.offcentre
           (World Sketch.blank []) 640 480); try reflexivity.
  - intros Hzero. discriminate Hzero.
  - intros Hneg. discriminate Hneg.
  - intros Hneg. discriminate Hneg.
Defined.

(** ** The loop of [main] *)

Section MainLoop.

Context {ndarray found contour : Type} `{cv : !Cv2 ndarray found contour}.

Lemma process_frame_table_error (frame : ndarray) color min e :
  process_frame frame color_bounds color min = Raise e ->
  e = KeyError color /\ ~ In color supported_colors.
Proof.
  intros Hrun.
  destruct (In_dec String.string_dec color supported_colors) as [Hin|Hout].
  - destruct (color_bounds_supported color Hin) as (entry & lower & upper & He & Hl & Hu).
    rewrite (process_frame_found frame _ color min entry lower upper He Hl Hu) in Hrun.
    discriminate.
  - rewrite process_frame_missing in Hrun by now apply color_bounds_unsupported.
    injection Hrun as <-. now split.
Qed.

Lemma draw_contours_log_prefix (frame : ndarray) (cnts : list contour) min log :
  exists new, log_stream (snd (draw_contours frame cnts min log)) = (log ++ new)%list.
Proof.
  destruct (draw_contours_outcome frame cnts min log)
    as [[_ ->] | (before & c & after & -> & _ & _ & _ & ->)]; cbn [snd].
  - eexists. apply annotate_all_log.
  - eexists. unfold outline_only. cbn [log_stream]. apply annotate_all_log.
Qed.

Lemma draw_contours_raise_kind (frame : ndarray) (cnts : list contour) min log e w :
  draw_contours frame cnts min log = (Raise e, w) -> e = ZeroDivisionError.
Proof.
  intros Hrun.
  destruct (draw_contours_outcome frame cnts min log)
    as [[_ Hok] | (before & c & after & _ & _ & _ & _ & Hfail)].
  - rewrite Hok in Hrun. discriminate.
  - rewrite Hfail in Hrun. now injection Hrun as <- _.
Qed.

(** What a run of the loop leaves behind. *)
Lemma main_loop_trace color (camera : list ndarray) d r d' :
  main_loop color camera d = (r, d') ->
  exists (shown : list ndarray) (new : list log_record),
    window d' = (window d ++ shown)%list /\
    logged d' = (logged d ++ new)%list /\
    keyboard d' = drop (length shown) (keyboard d) /\
    cleaned_up d' = cleaned_up d /\
    (length shown <= length camera)%nat /\
    (forall (i : nat) k, (S i < length shown)%nat -> keyboard d !! i = Some k ->
       Z.land k 255 <> 113) /\
    (r = Ok () -> (length shown < length camera)%nat ->
       (0 < length shown)%nat /\
       exists k, keyboard d !! (length shown - 1)%nat = Some k /\ Z.land k 255 = 113) /\
    (forall e, r = Raise e ->
       (length shown < length camera)%nat /\
       (e = ZeroDivisionError \/ (e = KeyError color /\ ~ In color supported_colors))).
Proof.
  revert d. induction camera as [|frame camera IH]; intros d.
  - cbn [main_loop]. intros [= <- <-]. exists [], [].
    rewrite !app_nil_r. cbn [length drop].
    split_and!; try reflexivity; try lia; try discriminate.
  - rewrite main_loop_turn. cbv zeta.
    set (resized := resize frame (640, 480)).
    set (min := get_min_contour_area _ _).
    destruct (process_frame resized color_bounds color min) as [[f cnts]|e] eqn:Hframe.
    2:{ intros [= <- <-]. exists [], []. rewrite !app_nil_r. cbn [length drop].
        split_and!; try reflexivity; try lia; try discriminate.
        intros e' [= <-]. split; [lia|]. right.
        exact (process_frame_table_error _ _ _ _ Hframe). }
    destruct (draw_contours_log_prefix f cnts min (logged d)) as [new1 Hlog].
    destruct (draw_contours f cnts min (logged d)) as [[shown1|e] w] eqn:Hdraw;
      cbn [snd] in Hlog.
    2:{ intros [= <- <-]. exists [], new1. rewrite app_nil_r.
        cbn [length drop keyboard window logged cleaned_up].
        split_and!; try reflexivity; try lia; try discriminate; try assumption.
        intros e' [= <-]. split; [lia|]. left.
        exact (draw_contours_raise_kind _ _ _ _ _ _ Hdraw). }
    unfold waitKey, imshow. cbn [keyboard window logged cleaned_up].
    destruct (keyboard d) as [|k ks] eqn:Hkeys.
    + change (Z.land (-1) 255 =? 113) with false. cbv iota.
      intros Hrest. apply IH in Hrest
        as (shown & new & Hwin & Hnew & Hkb & Hcu & Hlen & Hnot & Hquit & Hraise).
      cbn [keyboard window logged cleaned_up] in *.
      exists (shown1 :: shown), (new1 ++ new)%list.
      rewrite Hwin, Hnew, Hlog, Hkb, Hcu, <- !app_assoc. cbn [app length].
      split_and!; try reflexivity; try lia.
      * now rewrite !drop_nil.
      * intros i k _ Hk. discriminate Hk.
      * intros Hr Hlt. destruct (Hquit Hr ltac:(lia)) as [_ (k & Hk & _)].
        discriminate Hk.
      * intros e Hr. destruct (Hraise e Hr) as [Hlt Hkind]. split; [lia|exact Hkind].
    + destruct (Z.land k 255 =? 113) eqn:Hq.
      * intros [= <- <-]. cbn [keyboard window logged cleaned_up].
        exists [shown1], new1. cbn [length drop]. rewrite Hlog.
        apply Z.eqb_eq in Hq.
        split_and!; try reflexivity; try lia; try discriminate.
        intros _ _. split; [lia|]. exists k. now split.
      * intros Hrest. apply IH in Hrest
          as (shown & new & Hwin & Hnew & Hkb & Hcu & Hlen & Hnot & Hquit & Hraise).
        cbn [keyboard window logged cleaned_up] in *.
        apply Z.eqb_neq in Hq.
        exists (shown1 :: shown), (new1 ++ new)%list.
        rewrite Hwin, Hnew, Hlog, Hkb, Hcu, <- !app_assoc. cbn [app length drop].
        split_and!; try reflexivity; try lia.
        -- intros [|i] k0 Hi Hk0.
           ++ cbn in Hk0. now injection Hk0 as <-.
           ++ cbn in Hk0. apply (Hnot i k0); [lia|exact Hk0].
        -- intros Hr Hlt. destruct (Hquit Hr ltac:(lia)) as [Hpos (k0 & Hk0 & Hq0)].
           split; [lia|]. exists k0. split; [|exact Hq0].
           replace (S (length shown) - 1)%nat with (S (length shown - 1)) by lia.
           exact Hk0.
        -- intros e Hr. destruct (Hraise e Hr) as [Hlt Hkind]. split; [lia|exact Hkind].
Qed.

End MainLoop.

Section MainProperties.

Context {ndarray found contour : Type} `{cv : !Cv2 ndarray found contour}.

Lemma main_unfold (camera : list ndarray) d :
  main camera d =
    match main_loop "blue" camera d with
    | (Raise e, d1) => (Raise e, d1)
    | (Ok _, d1) => (Ok (), Desk (keyboard d1) (window d1) (logged d1) true)
    end.
Proof. reflexivity. Qed.





(** X13.  [main] only appends: the frames it shows come after those already
    in the window, the records it logs after those already logged, also
    when it raises.  It shows at most one frame per frame of the camera and
    polls the keyboard once per frame shown. *)
Theorem main_only_appends (camera : list ndarray) d :
  exists (shown : list ndarray) (new : list log_record),
    window (snd (main camera d)) = (window d ++ shown)%list /\
    logged (snd (main camera d)) = (logged d ++ new)%list /\
    keyboard (snd (main camera d)) = drop (length shown) (keyboard d) /\
    (length shown <= length camera)%nat.
Proof.
  rewrite main_unfold.
  destruct (main_loop "blue" camera d) as [r d1] eqn:Hloop.
  apply main_loop_trace in Hloop
    as (shown & new & Hwin & Hnew & Hkb & _ & Hlen & _).
  exists shown, new. destruct r as [[]|e]; cbn [snd window logged keyboard]; auto.
Qed.

(** X14.  Only the key q stops [main] before the camera runs out, and it is
    compared modulo 256: when [main] returns having shown fewer frames than
    the camera holds, the key polled after the last frame shown has low byte
    113, and none of the keys polled before has. *)
Theorem main_stops_on_q (camera : list ndarray) d d' :
  main camera d = (Ok (), d') ->
  exists shown : list ndarray,
    window d' = (window d ++ shown)%list /\
    (forall (i : nat) k, (S i < length shown)%nat -> keyboard d !! i = Some k ->
       Z.land k 255 <> 113) /\
    ((length shown < length camera)%nat ->
       exists k, keyboard d !! (length shown - 1)%nat = Some k /\ Z.land k 255 = 113).
Proof.
  rewrite main_unfold.
  destruct (main_loop "blue" camera d) as [[[]|e] d1] eqn:Hloop; [|discriminate].
  intros [= <-]. cbn [window].
  apply main_loop_trace in Hloop
    as (shown & new & Hwin & _ & _ & _ & _ & Hnot & Hquit & _).
  exists shown. split; [exact Hwin|]. split; [exact Hnot|].
  intros Hlt. now destruct (Hquit eq_refl Hlt) as [_ Hk].
Qed.

(** X15.  When no key of the keyboard has low byte 113 (in particular when
    no key is pressed at all) and [main] returns, every frame of the camera
    has been shown. *)
Theorem main_runs_to_the_end (camera : list ndarray) d d' :
  Forall (fun k => Z.land k 255 <> 113) (keyboard d) ->
  main camera d = (Ok (), d') ->
  length (window d') = (length (window d) + length camera)%nat.
Proof.
  intros Hkeys. rewrite main_unfold.
  destruct (main_loop "blue" camera d) as [[[]|e] d1] eqn:Hloop; [|discriminate].
  intros [= <-]. cbn [window].
  apply main_loop_trace in Hloop
    as (shown & new & Hwin & _ & _ & _ & Hlen & _ & Hquit & _).
  rewrite Hwin, length_app.
  destruct (Nat.eq_dec (length shown) (length camera)) as [->|Hne]; [reflexivity|].
  destruct (Hquit eq_refl ltac:(lia)) as [_ (k & Hk & Hq)].
  exfalso. apply list_elem_of_lookup_2 in Hk.
  rewrite List.Forall_forall in Hkeys. apply (Hkeys k); [|exact Hq].
  now apply list_elem_of_In.
Qed.


End MainProperties.

Lemma hsv_entry_lookup (lower upper : list Z) :
  hsv_entry lower upper !! "lower" = Some lower /\
  hsv_entry lower upper !! "upper" = Some upper.
Proof.
  unfold hsv_entry. split.
  - apply lookup_insert_eq.
  - rewrite lookup_insert_ne by discriminate. apply lookup_insert_eq.
Qed.

(** X17.  Every entry of the colour table is well formed: it has a "lower"
    and an "upper" bound of three components each, hue between 0 and 180,
    saturation and value between 0 and 255, and the lower bound is below the
    upper bound in every component. *)
Theorem color_bounds_well_formed (key : string) (entry : gmap string (list Z)) :
  color_bounds !! key = Some entry ->
  exists h1 s1 v1 h2 s2 v2,
    entry !! "lower" = Some [h1; s1; v1] /\
    entry !! "upper" = Some [h2; s2; v2] /\
    0 <= h1 <= h2 /\ h2 <= 180 /\
    0 <= s1 <= s2 /\ s2 <= 255 /\
    0 <= v1 <= v2 /\ v2 <= 255.
Proof.
  intros Hentry. unfold color_bounds in Hentry.
  apply elem_of_list_to_map_2, list_elem_of_In in Hentry. cbn [In] in Hentry.
  destruct Hentry as [H|[H|[H|[H|[H|[H|[H|[]]]]]]]]; injection H as _ <-;
    eexists _, _, _, _, _, _;
    (split; [apply hsv_entry_lookup|]); (split; [apply hsv_entry_lookup|]); lia.
Qed.

(** ** The further properties on concrete inputs *)

(** With the threshold at 5000 the off-centre region is no longer logged. *)
Lemma draw_contours_threshold_raised_witness :
  let cnts := [Sketch.disk50; Sketch.speck; Sketch.offcentre] in
  exists f' w',
    draw_contours Sketch.blank cnts 5000%Q [] = (Ok f', w') /\
    sublist (log_stream w')
            (log_stream (snd (draw_contours Sketch.blank cnts 307.2%Q []))).
Proof.
  cbv zeta.
  apply (draw_contours_threshold_raised Sketch.blank
           [Sketch.disk50; Sketch.speck; Sketch.offcentre] 307.2%Q 5000%Q []
           (frame_buf (snd (draw_contours Sketch.blank
                              [Sketch.disk50; Sketch.speck; Sketch.offcentre] 307.2%Q [])))).
  - intros Hgt. discriminate Hgt.
  - reflexivity.
Defined.


Lemma draw_contours_reordered_witness :
  exists f' w',
    draw_contours Sketch.blank [Sketch.offcentre; Sketch.disk50] 307.2%Q [] = (Ok f', w') /\
    Permutation
      (log_stream (snd (draw_contours Sketch.blank [Sketch.disk50; Sketch.offcentre]
                                      307.2%Q [])))
      (log_stream w').
Proof.
  apply (draw_contours_reordered Sketch.blank
           [Sketch.disk50; Sketch.offcentre] [Sketch.offcentre; Sketch.disk50] 307.2%Q []
           (frame_buf (snd (draw_contours Sketch.blank
                              [Sketch.disk50; Sketch.offcentre] 307.2%Q [])))).
  - apply perm_swap.
  - reflexivity.
Defined.

(** Three frames and the keys 0, 369 and 5: the second key is q modulo 256,
    two frames are shown. *)
Lemma main_stops_on_q_witness :
  let camera := [Sketch.blue_scene; Sketch.blank; Sketch.blue_scene] in
  let d := Desk [0; 369; 5] ([] : list Sketch.image) [] false in
  exists shown : list Sketch.image,
    window (snd (main camera d)) = (window d ++ shown)%list /\
    (forall (i : nat) k, (S i < length shown)%nat -> keyboard d !! i = Some k ->
       Z.land k 255 <> 113) /\
    ((length shown < length camera)%nat ->
       exists k, keyboard d !! (length shown - 1)%nat = Some k /\ Z.land k 255 = 113).
Proof.
  cbv zeta.
  apply (main_stops_on_q [Sketch.blue_scene; Sketch.blank; Sketch.blue_scene]
           (Desk [0; 369; 5] [] [] false)).
  vm_compute. reflexivity.
Defined.

(** Two frames and no key pressed: both are shown. *)
Lemma main_runs_to_the_end_witness :
  let camera := [Sketch.blue_scene; Sketch.blank] in
  let d := Desk [] ([] : list Sketch.image) [] false in
  length (window (snd (main camera d))) = 2%nat.
Proof.
  cbv zeta.
  apply (main_runs_to_the_end [Sketch.blue_scene; Sketch.blank] (Desk [] [] [] false)).
  - constructor.
  - vm_compute. reflexivity.
Defined.


Lemma color_bounds_well_formed_witness :
  exists h1 s1 v1 h2 s2 v2,
    hsv_entry [100; 50; 50] [130; 255; 255] !! "lower" = Some [h1; s1; v1] /\
    hsv_entry [100; 50; 50] [130; 255; 255] !! "upper" = Some [h2; s2; v2] /\
    0 <= h1 <= h2 /\ h2 <= 180 /\
    0 <= s1 <= s2 /\ s2 <= 255 /\
    0 <= v1 <= v2 /\ v2 <= 255.
Proof.
  apply (color_bounds_well_formed "blue"). vm_compute. reflexivity.
Defined.
